(** * Attendance system: a shallow embedding of [app.py]

    The Flask application keeps two SQL tables ([AccessLink], [Attendee]) and a
    signed session cookie.  Every view function of [app.py] is embedded below as
    a computation in a small state-and-exception monad over the tables and the
    session; the values that the Python runtime draws from the outside world
    during a request ([uuid.uuid4()], [datetime.utcnow()], the submitted form
    and query string) are carried by the [request] record. *)

From stdpp Require Import gmap strings list fin_maps sorting pretty.
From Stdlib Require Import ZArith Ascii String.

Local Open Scope string_scope.
Local Open Scope Z_scope.

(** ** Values *)

(** [datetime.datetime], field by field. *)
Record datetime : Type := mk_datetime {
  year : Z; month : Z; day : Z;
  hour : Z; minute : Z; second : Z; microsecond : Z
}.

(** Row of [class AccessLink(db.Model)].  The primary key [id] is the key of
    the table map, see [state]. *)
Record AccessLink : Type := mk_AccessLink {
  token : string;
  is_active : bool;
  created_at : datetime
}.

(** Row of [class Attendee(db.Model)], again without the primary key. *)
Record Attendee : Type := mk_Attendee {
  name : string;
  role : string;
  group : option string;
  timestamp : datetime;
  access_token_used : string
}.

Inductive http_method : Type := GET | POST.

(** What a view function reads from [flask.request], together with the values
    [uuid.uuid4()] and [datetime.utcnow()] return while it is served. *)
Record request : Type := mk_request {
  method : http_method;
  form : gmap string string;
  args : gmap string string;
  uuid4 : string;
  utcnow : datetime
}.

(** Flask endpoints, and the URL [url_for] builds for each from the
    [@app.route] decorators. *)
Inductive endpoint : Type :=
  | ep_register (tok : string)
  | ep_success
  | ep_home
  | ep_admin_login
  | ep_admin_logout
  | ep_admin_dashboard
  | ep_generate_link
  | ep_toggle_link_status (link_id : Z)
  | ep_export_csv.

(** Percent-encoding of a path variable, as the URL converters of werkzeug
    build it: [urllib.parse.quote(str(value), safe="!$&'()*+,/:;=@")].
    Letters, digits, [_.-~] and the characters of [safe] stay as they are;
    every other byte is written [%XX], with upper-case hexadecimal digits. *)
Definition url_safe (c : ascii) : bool :=
  let n := nat_of_ascii c in
  ((65 <=? n) && (n <=? 90) || (97 <=? n) && (n <=? 122) || (48 <=? n) && (n <=? 57))%nat
  || existsb (Ascii.eqb c) (list_ascii_of_string "_.-~!$&'()*+,/:;=@").

Definition hex_digit (n : nat) : ascii :=
  List.nth n (list_ascii_of_string "0123456789ABCDEF") "0"%char.

Definition url_quote_char (c : ascii) (rest : string) : string :=
  if url_safe c then String c rest
  else String "%" (String (hex_digit (nat_of_ascii c / 16))
                     (String (hex_digit (nat_of_ascii c mod 16)) rest)).

Fixpoint url_quote (s : string) : string :=
  match s with
  | EmptyString => EmptyString
  | String c s' => url_quote_char c (url_quote s')
  end.

(** Percent-decoding, as the server applies it to the path of a request
    before the route is matched ([urllib.parse.unquote]): [%XX] with two
    hexadecimal digits of either case stands for one byte, anything else for
    itself. *)
Definition hex_value (c : ascii) : option nat :=
  let n := nat_of_ascii c in
  (if (48 <=? n) && (n <=? 57) then Some (n - 48)
   else if (65 <=? n) && (n <=? 70) then Some (n - 55)
   else if (97 <=? n) && (n <=? 102) then Some (n - 87)
   else None)%nat.

Fixpoint url_unquote (s : string) : string :=
  match s with
  | EmptyString => EmptyString
  | String c s' =>
      match s' with
      | String h (String l rest) =>
          match (if Ascii.eqb c "%" then hex_value h else None), hex_value l with
          | Some x, Some y => String (ascii_of_nat (16 * x + y)) (url_unquote rest)
          | _, _ => String c (url_unquote s')
          end
      | _ => String c (url_unquote s')
      end
  end.

(** Whether every character of a text is one that percent-encoding keeps. *)
Fixpoint url_plain (s : string) : bool :=
  match s with
  | EmptyString => true
  | String c s' => url_safe c && url_plain s'
  end.

Definition url_for (e : endpoint) : string :=
  match e with
  | ep_register tok => "/register/" +:+ url_quote tok
  | ep_success => "/success"
  | ep_home => "/"
  | ep_admin_login => "/admin/login"
  | ep_admin_logout => "/admin/logout"
  | ep_admin_dashboard => "/admin/dashboard"
  | ep_generate_link => "/admin/generate-link"
  | ep_toggle_link_status link_id => "/admin/toggle-link/" +:+ pretty link_id
  | ep_export_csv => "/admin/export-csv"
  end.

(** The templates with the context each one is rendered with. *)
Inductive page : Type :=
  | invalid_link_html
  | register_html (tok : string) (roles : list string)
  | success_html
  | admin_login_html
  | admin_dashboard_html
      (attendees : list (Z * Attendee))
      (links : list (Z * AccessLink))
      (active_link : option (Z * AccessLink))
      (sort_by order : string).

(** Answers: a redirect, a rendered template with its status, an HTTP error
    ([404] from [get_or_404], [500] for an unhandled exception), or the
    response built by [make_response] with the headers set on it. *)
Inductive response : Type :=
  | redirect (location : string)
  | render_template (p : page) (status : Z)
  | abort (status : Z)
  | make_response (body : string) (headers : list (string * string)).

(** ** State: the two tables and the session cookie

    A table is a finite map from the integer primary key to the row (the
    default SQLite database: declared column lengths are not enforced).  The
    session holds the [admin_logged_in] entry, absent or a boolean, and the
    queue of flashed messages with their categories; the templates that show
    and empty the queue are not part of [app.py], so here it only grows. *)

Record state : Type := mk_state {
  access_link : gmap Z AccessLink;
  attendee : gmap Z Attendee;
  admin_logged_in : option bool;
  flashes : list (string * string)
}.

Definition with_access_link (t : gmap Z AccessLink) (st : state) : state :=
  mk_state t (attendee st) (admin_logged_in st) (flashes st).
Definition with_attendee (t : gmap Z Attendee) (st : state) : state :=
  mk_state (access_link st) t (admin_logged_in st) (flashes st).
Definition with_admin_logged_in (o : option bool) (st : state) : state :=
  mk_state (access_link st) (attendee st) o (flashes st).
Definition with_flashes (l : list (string * string)) (st : state) : state :=
  mk_state (access_link st) (attendee st) (admin_logged_in st) l.

(** ** The monad of view functions

    A view either returns and leaves a new state, or raises: an
    [HTTPException] from [get_or_404], or a database error at flush time.  The
    request then ends without [db.session.commit()], so the caller keeps the
    state it started from ([serve]). *)
Inductive result (A : Type) : Type :=
  | Ok (a : A) (st : state)
  | Raise (r : response).
Arguments Ok {A} a st.
Arguments Raise {A} r.

Definition view (A : Type) : Type := state → result A.

#[global] Instance view_ret : MRet view := λ A a st, Ok a st.
#[global] Instance view_bind : MBind view := λ A B f m st,
  match m st with
  | Ok a st' => f a st'
  | Raise r => Raise r
  end.

Definition get_state : view state := λ st, Ok st st.
Definition put_state (st' : state) : view unit := λ _, Ok tt st'.
Definition raise {A} (r : response) : view A := λ _, Raise r.

Definition serve (v : view response) (st : state) : response * state :=
  match v st with
  | Ok r st' => (r, st')
  | Raise r => (r, st)
  end.

(** [flash(message, category)] appends to the session's message queue. *)
Definition flash (message category : string) : view unit :=
  st ← get_state; put_state (with_flashes (flashes st ++ [(message, category)]) st).

(** Truth value of [session.get('admin_logged_in')]. *)
Definition session_get_admin_logged_in : view bool :=
  st ← get_state; mret (default false (admin_logged_in st)).

(** *** The SQLAlchemy calls used by the views *)

(** The integer primary key a new row receives: one more than the largest
    key in the table (rows are never deleted). *)
Definition next_id {V} (t : gmap Z V) : Z :=
  1 + foldr Z.max 0 (map_to_list t).*1.

Definition set_is_active (b : bool) (l : AccessLink) : AccessLink :=
  mk_AccessLink (token l) b (created_at l).
Definition deactivate : AccessLink → AccessLink := set_is_active false.

(** [AccessLink.query.update({AccessLink.is_active: False})] *)
Definition query_update_is_active_False : view unit :=
  st ← get_state; put_state (with_access_link (deactivate <$> access_link st) st).

(** [AccessLink.query.get_or_404(link_id)].  The route converter
    [<int:link_id>] accepts any run of digits, but an integer outside the
    64-bit range of SQLite cannot be bound to the query: the driver raises
    [OverflowError], nothing catches it, and the answer is 500.  No row is
    stored under such an id, so only the lookup that fails tells the two
    errors apart. *)
Definition get_or_404 (link_id : Z) : view AccessLink :=
  st ← get_state;
  match access_link st !! link_id with
  | Some l => mret l
  | None =>
      if bool_decide (- 2 ^ 63 ≤ link_id < 2 ^ 63) then raise (abort 404)
      else raise (abort 500)
  end.

(** [link.is_active = b] on the row loaded under primary key [link_id]. *)
Definition assign_is_active (link_id : Z) (b : bool) : view unit :=
  st ← get_state;
  put_state (with_access_link (alter (set_is_active b) link_id (access_link st)) st).

Definition token_in_use (tok : string) (t : gmap Z AccessLink) : bool :=
  bool_decide (Exists (λ kv, token kv.2 = tok) (map_to_list t)).

(** [db.session.add(AccessLink())]: the column defaults give the row a fresh
    [uuid4] token, [is_active = True] and the current time.  The [token]
    column is [unique]; a repeated token makes the flush fail. *)
Definition add_AccessLink (req : request) : view unit :=
  st ← get_state;
  if token_in_use (uuid4 req) (access_link st) then raise (abort 500)
  else put_state (with_access_link
         (<[next_id (access_link st) := mk_AccessLink (uuid4 req) true (utcnow req)]>
            (access_link st)) st).

(** [db.session.add(Attendee(...))], [timestamp] by its column default. *)
Definition add_Attendee (req : request) (nm rl : string) (grp : option string)
    (tok : string) : view unit :=
  st ← get_state;
  put_state (with_attendee
    (<[next_id (attendee st) := mk_Attendee nm rl grp (utcnow req) tok]> (attendee st)) st).

(** [db.session.commit()]: the changes made so far in [state] stand. *)
Definition commit : view unit := mret tt.

(** ** Authentication decorator *)

Definition login_required (f : view response) : view response :=
  logged ← session_get_admin_logged_in;
  if negb logged then
    flash "Please log in to access this page." "warning";;
    mret (redirect (url_for ep_admin_login))
  else f.

(** ** Link manager *)

Definition link_prefix (l : AccessLink) : string := substring 0 8 (token l).

Definition generate_link_body (req : request) : view response :=
  query_update_is_active_False;;
  add_AccessLink req;;
  commit;;
  flash "New access link generated and activated. Previous links have been deactivated." "success";;
  mret (redirect (url_for ep_admin_dashboard)).

Definition generate_link (req : request) : view response :=
  login_required (generate_link_body req).

Definition toggle_link_status_body (link_id : Z) (req : request) : view response :=
  link ← get_or_404 link_id;
  (if negb (is_active link) then
     query_update_is_active_False;;
     assign_is_active link_id true;;
     flash ("Link " +:+ link_prefix link +:+ "... has been activated. All other links deactivated.") "success"
   else
     assign_is_active link_id false;;
     flash ("Link " +:+ link_prefix link +:+ "... has been deactivated.") "warning");;
  commit;;
  mret (redirect (url_for ep_admin_dashboard)).

Definition toggle_link_status (link_id : Z) (req : request) : view response :=
  login_required (toggle_link_status_body link_id req).

(** Number of rows of the table with [is_active = true]. *)
Definition count_active (t : gmap Z AccessLink) : nat :=
  size (filter (λ kv, is_active kv.2 = true) t).

(** ** Registration *)

(** Hardcoded roles for the dropdown. *)
Definition roles : list string :=
  ["Member"; "Leader"; "Guest"; "First-timer"; "Volunteer"].

(** [AccessLink.query.filter_by(token=token, is_active=True).first()] *)
Definition first_active_link_by_token (tok : string) : view (option (Z * AccessLink)) :=
  st ← get_state;
  mret (head (filter (λ kv, token kv.2 = tok ∧ is_active kv.2 = true)
                (map_to_list (access_link st)))).

(** Python truth value of a [str]: the empty string is false. *)
Definition truthy (s : string) : bool :=
  match s with EmptyString => false | String _ _ => true end.

Definition register (tok : string) (req : request) : view response :=
  link ← first_active_link_by_token tok;
  match link with
  | None => mret (render_template invalid_link_html 404)
  | Some _ =>
    match method req with
    | POST =>
      let invalid : view response :=
        flash "Name and Role are required fields." "danger";;
        mret (redirect (url_for (ep_register tok))) in
      (* [request.form.get] gives [None], which is false too, for a missing key *)
      match form req !! "name", form req !! "role" with
      | Some nm, Some rl =>
        if negb (truthy nm) || negb (truthy rl) then invalid
        else
          add_Attendee req nm rl (form req !! "group") tok;;
          commit;;
          mret (redirect (url_for ep_success))
      | _, _ => invalid
      end
    | GET => mret (render_template (register_html tok roles) 200)
    end
  end.

Definition success (req : request) : view response :=
  mret (render_template success_html 200).

Definition home (req : request) : view response :=
  mret (redirect (url_for ep_admin_dashboard)).

(** ** Admin session *)

Section credentials.
(** [os.environ] after [load_dotenv()]. *)
Variable environ : gmap string string.

Definition ADMIN_USERNAME : string := default "admin" (environ !! "ADMIN_USERNAME").
Definition ADMIN_PASSWORD : string := default "password" (environ !! "ADMIN_PASSWORD").

Definition admin_login (req : request) : view response :=
  logged ← session_get_admin_logged_in;
  if (logged : bool) then mret (redirect (url_for ep_admin_dashboard))
  else
    match method req with
    | POST =>
      let username := form req !! "username" in
      let password := form req !! "password" in
      if bool_decide (username = Some ADMIN_USERNAME)
         && bool_decide (password = Some ADMIN_PASSWORD) then
        (st ← get_state; put_state (with_admin_logged_in (Some true) st));;
        flash "Login successful!" "success";;
        mret (redirect (url_for ep_admin_dashboard))
      else
        flash "Invalid credentials. Please try again." "danger";;
        mret (render_template admin_login_html 200)
    | GET => mret (render_template admin_login_html 200)
    end.
End credentials.

(** [session.pop('admin_logged_in', None)] followed by the flash and the
    redirect; the view carries no [@login_required]. *)
Definition admin_logout (req : request) : view response :=
  (st ← get_state; put_state (with_admin_logged_in None st));;
  flash "You have been logged out." "info";;
  mret (redirect (url_for ep_admin_login)).

(** ** Ordering rows *)

Definition cmp_then (c d : comparison) : comparison :=
  match c with Eq => d | _ => c end.

(** Order of [datetime] values (and of their ISO text in the database). *)
Definition datetime_compare (a b : datetime) : comparison :=
  cmp_then (year a ?= year b)
  (cmp_then (month a ?= month b)
  (cmp_then (day a ?= day b)
  (cmp_then (hour a ?= hour b)
  (cmp_then (minute a ?= minute b)
  (cmp_then (second a ?= second b)
            (microsecond a ?= microsecond b)))))).

(** A nullable text column: NULL sorts before every string. *)
Definition nullable_compare (a b : option string) : comparison :=
  match a, b with
  | None, None => Eq
  | None, Some _ => Lt
  | Some _, None => Gt
  | Some x, Some y => String.compare x y
  end.

Inductive Attendee_column : Type :=
  | col_id | col_name | col_role | col_group | col_timestamp | col_access_token_used.

(** [getattr(Attendee, sort_by)]; [None] stands for [AttributeError]. *)
Definition getattr_Attendee (attr : string) : option Attendee_column :=
  if decide (attr = "id") then Some col_id
  else if decide (attr = "name") then Some col_name
  else if decide (attr = "role") then Some col_role
  else if decide (attr = "group") then Some col_group
  else if decide (attr = "timestamp") then Some col_timestamp
  else if decide (attr = "access_token_used") then Some col_access_token_used
  else None.

Definition column_compare (c : Attendee_column) (a b : Z * Attendee) : comparison :=
  match c with
  | col_id => a.1 ?= b.1
  | col_name => String.compare (name a.2) (name b.2)
  | col_role => String.compare (role a.2) (role b.2)
  | col_group => nullable_compare (group a.2) (group b.2)
  | col_timestamp => datetime_compare (timestamp a.2) (timestamp b.2)
  | col_access_token_used =>
      String.compare (access_token_used a.2) (access_token_used b.2)
  end.

(** [ORDER BY ... ASC] and [ORDER BY ... DESC] for a comparison of rows.  The
    order among rows that compare equal is the one the sort leaves. *)
Definition asc {A} (cmp : A → A → comparison) (a b : A) : Prop := cmp a b ≠ Gt.
Definition desc {A} (cmp : A → A → comparison) (a b : A) : Prop := cmp a b ≠ Lt.

#[global] Instance asc_dec {A} (cmp : A → A → comparison) : RelDecision (asc cmp).
Proof. intros a b. unfold asc. destruct (cmp a b); (left; discriminate) || (right; tauto). Defined.
#[global] Instance desc_dec {A} (cmp : A → A → comparison) : RelDecision (desc cmp).
Proof. intros a b. unfold desc. destruct (cmp a b); (left; discriminate) || (right; tauto). Defined.

Definition order_by {A} (R : A → A → Prop) `{!RelDecision R} (rows : list A) : list A :=
  merge_sort R rows.

(** ** Roster *)

Definition sortable_columns : list string := ["name"; "role"; "group"; "timestamp"].

Definition admin_dashboard_body (req : request) : view response :=
  let sort_by := default "timestamp" (args req !! "sort_by") in
  let order := default "desc" (args req !! "order") in
  let sort_by := if bool_decide (sort_by ∉ sortable_columns) then "timestamp" else sort_by in
  st ← get_state;
  match getattr_Attendee sort_by with
  | None => raise (abort 500)
  | Some col =>
    let query := map_to_list (attendee st) in
    let attendees :=
      if bool_decide (order = "asc") then order_by (asc (column_compare col)) query
      else order_by (desc (column_compare col)) query in
    let links :=
      order_by (desc (λ a b : Z * AccessLink, datetime_compare (created_at a.2) (created_at b.2)))
               (map_to_list (access_link st)) in
    let active_link :=
      head (filter (λ kv, is_active kv.2 = true) (map_to_list (access_link st))) in
    mret (render_template (admin_dashboard_html attendees links active_link sort_by order) 200)
  end.

Definition admin_dashboard (req : request) : view response :=
  login_required (admin_dashboard_body req).

(** ** CSV export *)

(** [str.zfill] *)
Definition zfill (width : nat) (s : string) : string :=
  string_of_list_ascii (replicate (width - String.length s) "0"%char) +:+ s.

(** [strftime('%Y-%m-%d %H:%M:%S')], which CPython hands to the C library:
    every field in decimal, month, day, hour, minute and second zero-padded to
    two digits, the year written as it is (three digits for the year 999). *)
Definition strftime (dt : datetime) : string :=
  pretty (year dt) +:+ "-" +:+ zfill 2 (pretty (month dt)) +:+ "-" +:+
  zfill 2 (pretty (day dt)) +:+ " " +:+ zfill 2 (pretty (hour dt)) +:+ ":" +:+
  zfill 2 (pretty (minute dt)) +:+ ":" +:+ zfill 2 (pretty (second dt)).

(** The values handed to [csv.writer.writerow]. *)
Inductive cell : Type :=
  | cell_int (n : Z)
  | cell_str (s : string)
  | cell_None.

(** [csv.writer] with the default [excel] dialect. *)
Module csv.
Definition delimiter : ascii := ","%char.
Definition quotechar : ascii := "034"%char.
Definition CR : ascii := "013"%char.
Definition LF : ascii := "010"%char.
Definition lineterminator : string := String CR (String LF EmptyString).

(** Text of a value: [None] is written as the empty string, anything else
    through [str]. *)
Definition text (c : cell) : string :=
  match c with
  | cell_int n => pretty n
  | cell_str s => s
  | cell_None => ""
  end.

Definition special (c : ascii) : bool :=
  bool_decide (c = delimiter) || bool_decide (c = quotechar)
  || bool_decide (c = CR) || bool_decide (c = LF).

Fixpoint needs_quotes (s : string) : bool :=
  match s with
  | EmptyString => false
  | String c s' => special c || needs_quotes s'
  end.

(** [doublequote = True]: a quote character inside a field is written twice. *)
Fixpoint escape (s : string) : string :=
  match s with
  | EmptyString => EmptyString
  | String c s' =>
      if bool_decide (c = quotechar) then String c (String c (escape s'))
      else String c (escape s')
  end.

(** [QUOTE_MINIMAL] *)
Definition field (c : cell) : string :=
  let s := text c in
  if needs_quotes s then String quotechar (escape s) +:+ String quotechar EmptyString
  else s.

Fixpoint join (fields : list string) : string :=
  match fields with
  | [] => ""
  | [f] => f
  | f :: rest => f +:+ String delimiter (join rest)
  end.

(** [writer.writerow(row)] on the buffer [output]. *)
Definition writerow (output : string) (row : list cell) : string :=
  output +:+ join (field <$> row) +:+ lineterminator.
End csv.

Definition csv_header : list cell :=
  [cell_str "ID"; cell_str "Name"; cell_str "Role"; cell_str "Group";
   cell_str "Timestamp (UTC)"; cell_str "Access Token Used"].

Definition csv_row (a : Z * Attendee) : list cell :=
  [cell_int a.1;
   cell_str (name a.2);
   cell_str (role a.2);
   from_option cell_str cell_None (group a.2);
   cell_str (strftime (timestamp a.2));
   cell_str (access_token_used a.2)].

(** The headers set on the response. *)
Definition export_headers : list (string * string) :=
  [("Content-Disposition", "attachment; filename=attendance_export.csv");
   ("Content-type", "text/csv")].

Definition export_csv_body (req : request) : view response :=
  st ← get_state;
  let attendees := order_by (desc (column_compare col_timestamp)) (map_to_list (attendee st)) in
  let output := "" in
  let output := csv.writerow output csv_header in
  let output := foldl (λ out a, csv.writerow out (csv_row a)) output attendees in
  mret (make_response output export_headers).

Definition export_csv (req : request) : view response :=
  login_required (export_csv_body req).

(** ** Runs of the link manager *)

Inductive link_op : Type :=
  | GenerateLink (req : request)
  | ToggleLink (link_id : Z) (req : request).

Definition link_view (op : link_op) : view response :=
  match op with
  | GenerateLink req => generate_link req
  | ToggleLink link_id req => toggle_link_status link_id req
  end.

(** The committed states after each operation of a sequence, in order. *)
Fixpoint states_after (ops : list link_op) (st : state) : list state :=
  match ops with
  | [] => []
  | op :: ops' =>
      let st' := (serve (link_view op) st).2 in
      st' :: states_after ops' st'
  end.

(** ** Outcomes named by the statements below *)

(** Truth value of the session flag. *)
Definition logged_in (st : state) : bool := default false (admin_logged_in st).

(** What the guard answers to a session without the flag. *)
Definition unauthorized (st : state) : response * state :=
  (redirect "/admin/login",
   with_flashes (flashes st ++ [("Please log in to access this page.", "warning")]) st).

(** No two distinct rows are active. *)
Definition at_most_one_active (t : gmap Z AccessLink) : Prop :=
  ∀ i j a b, t !! i = Some a → t !! j = Some b →
    is_active a = true → is_active b = true → i = j.

(** State left by a [generate_link] that commits. *)
Definition generated (req : request) (st : state) : state :=
  mk_state
    (<[next_id (deactivate <$> access_link st) :=
         mk_AccessLink (uuid4 req) true (utcnow req)]> (deactivate <$> access_link st))
    (attendee st) (admin_logged_in st)
    (flashes st ++
       [("New access link generated and activated. Previous links have been deactivated.",
         "success")]).

(** State left by a [toggle_link_status] that finds the row [l]. *)
Definition toggled (link_id : Z) (l : AccessLink) (st : state) : state :=
  if is_active l then
    mk_state (<[link_id := set_is_active false l]> (access_link st))
      (attendee st) (admin_logged_in st)
      (flashes st ++ [("Link " +:+ link_prefix l +:+ "... has been deactivated.", "warning")])
  else
    mk_state (<[link_id := set_is_active true l]> (deactivate <$> access_link st))
      (attendee st) (admin_logged_in st)
      (flashes st ++
         [("Link " +:+ link_prefix l +:+ "... has been activated. All other links deactivated.",
           "success")]).

(** Some active link carries the token [tok]. *)
Definition accepts (tok : string) (t : gmap Z AccessLink) : Prop :=
  ∃ id l, t !! id = Some l ∧ token l = tok ∧ is_active l = true.

(** A form field that is missing or empty. *)
Definition blank (o : option string) : Prop := o = None ∨ o = Some "".

(** State left by the refusal of an incomplete registration. *)
Definition refused_registration (st : state) : state :=
  with_flashes (flashes st ++ [("Name and Role are required fields.", "danger")]) st.

(** State left by a failed login attempt. *)
Definition failed_login (st : state) : state :=
  with_flashes (flashes st ++ [("Invalid credentials. Please try again.", "danger")]) st.

(** State left by [admin_logout]. *)
Definition logged_out (st : state) : state :=
  mk_state (access_link st) (attendee st) None
    (flashes st ++ [("You have been logged out.", "info")]).

(** The views behind [@login_required], and [admin_logout], by name. *)
Inductive admin_op : Type :=
  | op_logout
  | op_dashboard
  | op_generate_link
  | op_toggle_link (link_id : Z)
  | op_export_csv.

Definition admin_view (op : admin_op) (req : request) : view response :=
  match op with
  | op_logout => admin_logout req
  | op_dashboard => admin_dashboard req
  | op_generate_link => generate_link req
  | op_toggle_link link_id => toggle_link_status link_id req
  | op_export_csv => export_csv req
  end.

(** The same request with one query-string argument replaced. *)
Definition set_arg (k v : string) (req : request) : request :=
  mk_request (method req) (form req) (<[k := v]> (args req)) (uuid4 req) (utcnow req).

(** What the dashboard lists: the attendees, the links and the active link. *)
Definition listing (r : response)
    : option (list (Z * Attendee) * list (Z * AccessLink) * option (Z * AccessLink)) :=
  match r with
  | render_template (admin_dashboard_html attendees links active_link _ _) _ =>
      Some (attendees, links, active_link)
  | _ => None
  end.

(** ** Reading the exported text *)

(** Bounds of the fields of a [datetime] object whose year has four digits,
    as every value of [datetime.utcnow()] has (for [day], the bound common to
    all months). *)
Definition valid_datetime (dt : datetime) : Prop :=
  1000 ≤ year dt ≤ 9999 ∧ 1 ≤ month dt ≤ 12 ∧ 1 ≤ day dt ≤ 31
  ∧ 0 ≤ hour dt < 24 ∧ 0 ≤ minute dt < 60 ∧ 0 ≤ second dt < 60
  ∧ 0 ≤ microsecond dt < 1000000.

Definition is_digit (c : ascii) : bool :=
  (48 <=? nat_of_ascii c)%nat && (nat_of_ascii c <=? 57)%nat.

(** Layout of a text: each position is a decimal digit or a given character. *)
Inductive position : Type :=
  | digit
  | lit (c : ascii).

Fixpoint matches (layout : list position) (s : string) : bool :=
  match layout, s with
  | [], EmptyString => true
  | digit :: layout', String c s' => is_digit c && matches layout' s'
  | lit c0 :: layout', String c s' => bool_decide (c = c0) && matches layout' s'
  | _, _ => false
  end.

(** [YYYY-MM-DD HH:MM:SS] *)
Definition timestamp_layout : list position :=
  [digit; digit; digit; digit; lit "-"; digit; digit; lit "-"; digit; digit; lit " ";
   digit; digit; lit ":"; digit; digit; lit ":"; digit; digit]%char.

(** The text [writerow] appends for a row. *)
Definition csv_line (row : list cell) : string :=
  csv.join (csv.field <$> row) +:+ csv.lineterminator.

Definition header_line : string :=
  "ID,Name,Role,Group,Timestamp (UTC),Access Token Used" +:+ csv.lineterminator.

Fixpoint concat_lines (lines : list string) : string :=
  match lines with
  | [] => ""
  | l :: lines' => l +:+ concat_lines lines'
  end.

(** A reader of CSV text, as far as records go: a quote character opens or
    closes a quoted field, and a line feed outside quoted fields ends a
    record.  [scan] returns whether the text ends inside a quoted field and
    how many records ended. *)
Fixpoint scan (quoted : bool) (s : string) : bool * nat :=
  match s with
  | EmptyString => (quoted, 0%nat)
  | String c s' =>
      if bool_decide (c = csv.quotechar) then scan (negb quoted) s'
      else if bool_decide (c = csv.LF) && negb quoted then
        let '(q, n) := scan false s' in (q, S n)
      else scan quoted s'
  end.

Definition count_records (s : string) : nat := (scan false s).2.

(** A reader of CSV text.  Outside quotes a comma ends the field, a line feed
    ends the record and a carriage return is dropped; a quote opens a quoted
    field, inside which only a quote is special: doubled it stands for
    itself, single it closes the field.  [fld] is the text of the field being
    read and [rec] the fields of the record read so far. *)
Inductive reading : Type :=
  | in_plain
  | in_quoted
  | after_quote.

Fixpoint read_csv_from (mode : reading) (fld : string) (rec : list string) (s : string)
    : list (list string) :=
  match s with
  | EmptyString =>
      match mode, fld, rec with
      | in_plain, EmptyString, [] => []
      | _, _, _ => [(rec ++ [fld])%list]
      end
  | String c s' =>
      match mode with
      | in_quoted =>
          if bool_decide (c = csv.quotechar) then read_csv_from after_quote fld rec s'
          else read_csv_from in_quoted (fld +:+ String c EmptyString) rec s'
      | _ =>
          if bool_decide (c = csv.quotechar) then
            match mode with
            | after_quote => read_csv_from in_quoted (fld +:+ String c EmptyString) rec s'
            | _ => read_csv_from in_quoted fld rec s'
            end
          else if bool_decide (c = csv.delimiter) then
            read_csv_from in_plain EmptyString (rec ++ [fld])%list s'
          else if bool_decide (c = csv.LF) then
            (rec ++ [fld])%list :: read_csv_from in_plain EmptyString [] s'
          else if bool_decide (c = csv.CR) then read_csv_from in_plain fld rec s'
          else read_csv_from in_plain (fld +:+ String c EmptyString) rec s'
      end
  end.

Definition read_csv (s : string) : list (list string) :=
  read_csv_from in_plain EmptyString [] s.

(** The number a text of decimal digits denotes. *)
Definition digit_value (c : ascii) : Z := Z.of_nat (nat_of_ascii c) - 48.

Fixpoint number_from (acc : Z) (s : string) : Z :=
  match s with
  | EmptyString => acc
  | String c s' => number_from (10 * acc + digit_value c) s'
  end.

Definition number (s : string) : Z := number_from 0 s.

(** Reading a text of the layout [YYYY-MM-DD HH:MM:SS] back: the year, month,
    day, hour, minute and second it shows. *)
Definition read_timestamp (s : string) : option (Z * Z * Z * Z * Z * Z) :=
  if matches timestamp_layout s then
    Some (number (substring 0 4 s), number (substring 5 2 s), number (substring 8 2 s),
          number (substring 11 2 s), number (substring 14 2 s), number (substring 17 2 s))
  else None.

(** Whether a number is written, zero-padded, with two digits that read back
    as the number; whether it is written with four. *)
Definition two_digits (x : Z) : bool :=
  match zfill 2 (pretty x) with
  | String a (String b EmptyString) =>
      is_digit a && is_digit b && (number (String a (String b EmptyString)) =? x)
  | _ => false
  end.

Definition four_digits (x : Z) : bool :=
  match pretty x with
  | String a (String b (String c (String d EmptyString))) =>
      is_digit a && is_digit b && is_digit c && is_digit d
      && (number (String a (String b (String c (String d EmptyString)))) =? x)
  | _ => false
  end.

(** Rows in descending order of [timestamp]. *)
Definition newest_first (a b : Z * Attendee) : Prop :=
  datetime_compare (timestamp a.2) (timestamp b.2) ≠ Lt.

(** ** Sample data *)

Definition noon : datetime := mk_datetime 2024 5 17 12 0 0 0.
Definition later : datetime := mk_datetime 2024 5 17 12 30 0 0.

Definition sample_request (m : http_method) (fields query : list (string * string))
    (tok : string) (now : datetime) : request :=
  mk_request m (list_to_map fields) (list_to_map query) tok now.

Definition anonymous : state := mk_state ∅ ∅ None [].
Definition admin : state := mk_state ∅ ∅ (Some true) [].

(** The admin generated link A, then link B. *)
Definition after_A : state :=
  (serve (generate_link (sample_request POST [] [] "tok-A" noon)) admin).2.
Definition after_B : state :=
  (serve (generate_link (sample_request POST [] [] "tok-B" later)) after_A).2.

(** Jo and Al registered through link B. *)
Definition with_Jo : state :=
  (serve (register "tok-B"
     (sample_request POST [("name", "Jo"); ("role", "Guest"); ("group", "")] [] "" later))
     after_B).2.
Definition with_Al : state :=
  (serve (register "tok-B"
     (sample_request POST [("name", "Al"); ("role", "Leader")] [] "" noon))
     with_Jo).2.

(** ** The routes

    The table the [@app.route] decorators build: the view function of each
    endpoint and the methods it accepts.  A request with another method is
    answered 405 by Flask and the view does not run. *)

#[global] Instance http_method_eq_dec : EqDecision http_method.
Proof. solve_decision. Defined.

#[global] Instance endpoint_eq_dec : EqDecision endpoint.
Proof. solve_decision. Defined.

Definition methods (e : endpoint) : list http_method :=
  match e with
  | ep_register _ => [GET; POST]
  | ep_admin_login => [GET; POST]
  | ep_generate_link => [POST]
  | ep_toggle_link_status _ => [POST]
  | ep_success | ep_home | ep_admin_logout | ep_admin_dashboard | ep_export_csv => [GET]
  end.

Section routes.
(** [os.environ], as in [credentials]. *)
Variable environ : gmap string string.

Definition view_function (e : endpoint) (req : request) : view response :=
  match e with
  | ep_register tok => register tok req
  | ep_success => success req
  | ep_home => home req
  | ep_admin_login => admin_login environ req
  | ep_admin_logout => admin_logout req
  | ep_admin_dashboard => admin_dashboard req
  | ep_generate_link => generate_link req
  | ep_toggle_link_status link_id => toggle_link_status link_id req
  | ep_export_csv => export_csv req
  end.

Definition dispatch (e : endpoint) (req : request) : view response :=
  if bool_decide (method req ∈ methods e) then view_function e req
  else raise (abort 405).

(** The state a request leaves, and the state a sequence of requests leaves. *)
Definition handle (st : state) (r : endpoint * request) : state :=
  (serve (dispatch r.1 r.2) st).2.

Definition run (rs : list (endpoint * request)) (st : state) : state :=
  foldl handle st rs.
End routes.

(** ** Vocabulary of the further statements *)

(** State left by a registration that is accepted. *)
Definition registered (tok : string) (req : request) (nm rl : string) (st : state) : state :=
  with_attendee
    (<[next_id (attendee st) :=
         mk_Attendee nm rl (form req !! "group") (utcnow req) tok]> (attendee st)) st.

(** What one request may do to the two tables. *)
Inductive table_change (req : request) (st st' : state) : Prop :=
  | tc_none :
      access_link st' = access_link st → attendee st' = attendee st →
      table_change req st st'
  | tc_generate :
      method req = POST → logged_in st = true →
      token_in_use (uuid4 req) (access_link st) = false →
      access_link st' = access_link (generated req st) → attendee st' = attendee st →
      table_change req st st'
  | tc_toggle (link_id : Z) (l : AccessLink) :
      method req = POST → logged_in st = true →
      access_link st !! link_id = Some l →
      access_link st' = access_link (toggled link_id l st) → attendee st' = attendee st →
      table_change req st st'
  | tc_register (tok nm rl : string) :
      method req = POST → accepts tok (access_link st) →
      form req !! "name" = Some nm → form req !! "role" = Some rl →
      nm ≠ "" → rl ≠ "" →
      access_link st' = access_link st →
      attendee st' = attendee (registered tok req nm rl st) →
      table_change req st st'.

(** No two rows of [AccessLink] carry the same token. *)
Definition tokens_unique (t : gmap Z AccessLink) : Prop :=
  ∀ i j a b, t !! i = Some a → t !! j = Some b → token a = token b → i = j.

(** Every attendee row names the token of a row of [AccessLink]. *)
Definition tokens_known (st : state) : Prop :=
  ∀ id a, attendee st !! id = Some a →
    ∃ link_id l, access_link st !! link_id = Some l ∧ token l = access_token_used a.

(** A comparison that behaves as an order: swapping the arguments turns the
    result around, and "not greater" is transitive. *)
Definition is_order {A} (cmp : A → A → comparison) : Prop :=
  (∀ a b, cmp b a = CompOpp (cmp a b))
  ∧ (∀ a b c, cmp a b ≠ Gt → cmp b c ≠ Gt → cmp a c ≠ Gt).

(** Links in descending order of [created_at]. *)
Definition newest_link_first (a b : Z * AccessLink) : Prop :=
  datetime_compare (created_at a.2) (created_at b.2) ≠ Lt.

(** The CSV reader of [scan], counting the delimiters outside quoted fields
    instead of the records. *)
Fixpoint scan_delimiters (quoted : bool) (s : string) : bool * nat :=
  match s with
  | EmptyString => (quoted, 0%nat)
  | String c s' =>
      if bool_decide (c = csv.quotechar) then scan_delimiters (negb quoted) s'
      else if bool_decide (c = csv.delimiter) && negb quoted then
        let '(q, n) := scan_delimiters quoted s' in (q, S n)
      else scan_delimiters quoted s'
  end.

(** Number of fields a reader finds in one line. *)
Definition count_fields (line : string) : nat := S (scan_delimiters false line).2.

(** A session of requests: the admin logs in, generates link A, Jo registers
    through it, the admin generates link B, switches A back on and logs out;
    a last request tries to generate a link without the session. *)
Definition sample_session : list (endpoint * request) :=
  [(ep_admin_login,
    sample_request POST [("username", "admin"); ("password", "password")] [] "" noon);
   (ep_generate_link, sample_request POST [] [] "tok-A" noon);
   (ep_register "tok-A",
    sample_request POST [("name", "Jo"); ("role", "Guest")] [] "" later);
   (ep_generate_link, sample_request POST [] [] "tok-B" later);
   (ep_toggle_link_status 1, sample_request POST [] [] "" later);
   (ep_admin_logout, sample_request GET [] [] "" later);
   (ep_generate_link, sample_request POST [] [] "tok-C" later)].

(** * Proofs *)

Ltac run_view :=
  unfold serve, login_required, session_get_admin_logged_in, flash,
    query_update_is_active_False, get_or_404, assign_is_active, add_AccessLink,
    add_Attendee, commit, first_active_link_by_token, get_state, put_state, raise,
    mbind, view_bind, mret, view_ret;
  cbn [access_link attendee admin_logged_in flashes with_access_link with_attendee
       with_admin_logged_in with_flashes fst snd].

(** ** The scenarios of the specification, evaluated *)

Example scenario_registration :
  map_to_list (attendee with_Jo) = [(1, mk_Attendee "Jo" "Guest" (Some "") later "tok-B")].
Proof. reflexivity. Qed.

Example scenario_toggle_off_then_register :
  ∃ st',
    serve (toggle_link_status 2 (sample_request POST [] [] "" later)) after_B
      = (redirect "/admin/dashboard", st')
    ∧ serve (register "tok-B"
               (sample_request POST [("name", "Jo"); ("role", "Guest")] [] "" later)) st'
      = (render_template invalid_link_html 404, st').
Proof. eexists. split; reflexivity. Qed.

Example scenario_dashboard_without_login :
  (serve (admin_dashboard (sample_request GET [] [] "" noon)) anonymous).1
  = redirect "/admin/login".
Proof. reflexivity. Qed.

Example scenario_export :
  (serve (export_csv (sample_request GET [] [] "" later)) with_Al).1
  = make_response
      ("ID,Name,Role,Group,Timestamp (UTC),Access Token Used" +:+ csv.lineterminator +:+
       "1,Jo,Guest,,2024-05-17 12:30:00,tok-B" +:+ csv.lineterminator +:+
       "2,Al,Leader,,2024-05-17 12:00:00,tok-B" +:+ csv.lineterminator)
      export_headers.
Proof. by vm_compute. Qed.

Example scenario_quoted_field :
  csv.field (cell_str "Doe, Jo")
  = String csv.quotechar ("Doe, Jo" +:+ String csv.quotechar "").
Proof. reflexivity. Qed.

Example scenario_token_collision :
  serve (generate_link (sample_request POST [] [] "tok-A" later)) after_B
  = (abort 500, after_B).
Proof. by vm_compute. Qed.

(** ** The guard *)

Lemma login_required_refuses (f : view response) (st : state) :
  logged_in st = false → serve (login_required f) st = unauthorized st.
Proof. unfold logged_in. intros H. run_view. by rewrite H. Qed.

Lemma login_required_admits (f : view response) (st : state) :
  logged_in st = true → login_required f st = f st.
Proof. unfold logged_in. intros H. run_view. by rewrite H. Qed.

(** ** At most one active link *)

Lemma count_active_le_1 (t : gmap Z AccessLink) :
  (count_active t ≤ 1)%nat ↔ at_most_one_active t.
Proof.
  unfold count_active, at_most_one_active. split.
  - intros Hsz i j a b Hi Hj Ha Hb.
    destruct (decide (i = j)) as [|Hne]; [done|exfalso].
    set (m := filter (λ kv : Z * AccessLink, is_active kv.2 = true) t) in *.
    assert (Hmi : m !! i = Some a) by (by apply map_lookup_filter_Some).
    assert (Hmj : delete i m !! j = Some b).
    { rewrite lookup_delete_ne by done. by apply map_lookup_filter_Some. }
    assert (size (delete i m) ≠ 0%nat).
    { apply map_size_ne_0_lookup. eauto. }
    rewrite map_size_delete, Hmi in *. simpl in *. lia.
  - intros H.
    set (m := filter (λ kv : Z * AccessLink, is_active kv.2 = true) t).
    assert (Hm : ∀ i j a b, m !! i = Some a → m !! j = Some b → i = j).
    { intros i j a b [Hi Ha]%map_lookup_filter_Some [Hj Hb]%map_lookup_filter_Some.
      eauto. }
    clearbody m. clear H. induction m as [|i x m Hi _] using map_ind.
    + rewrite map_size_empty. lia.
    + rewrite map_size_insert_None by done.
      destruct (decide (m = ∅)) as [->|Hne].
      * rewrite map_size_empty. lia.
      * exfalso. apply map_choose in Hne as (j & y & Hj).
        assert (i = j); [|congruence].
        eapply Hm; [apply lookup_insert_eq|].
        rewrite lookup_insert_ne; [done|congruence].
Qed.

Lemma deactivate_none_active (t : gmap Z AccessLink) i a :
  (deactivate <$> t) !! i = Some a → is_active a = false.
Proof. rewrite lookup_fmap. destruct (t !! i); naive_solver. Qed.

Lemma at_most_one_insert_after_deactivate (t : gmap Z AccessLink) k l :
  at_most_one_active (<[k := l]> (deactivate <$> t)).
Proof.
  intros i j a b Hi Hj Ha Hb.
  destruct (decide (i = j)) as [|Hij]; [done|exfalso].
  destruct (decide (k = i)) as [Hki|Hki].
  - rewrite lookup_insert_ne in Hj by congruence.
    apply deactivate_none_active in Hj. congruence.
  - rewrite lookup_insert_ne in Hi by done.
    apply deactivate_none_active in Hi. congruence.
Qed.

Lemma alter_as_insert (t : gmap Z AccessLink) f k l :
  t !! k = Some l → alter f k t = <[k := f l]> t.
Proof.
  intros H. apply map_eq. intros i. rewrite lookup_alter, lookup_insert.
  repeat case_decide; subst; try done. by rewrite H.
Qed.

Lemma at_most_one_switch_off (t : gmap Z AccessLink) k l :
  at_most_one_active t → is_active l = false → at_most_one_active (<[k := l]> t).
Proof.
  intros H Hl i j a b Hi Hj Ha Hb.
  destruct (decide (k = i)) as [->|].
  { rewrite lookup_insert_eq in Hi. congruence. }
  destruct (decide (k = j)) as [->|].
  { rewrite lookup_insert_eq in Hj. congruence. }
  rewrite lookup_insert_ne in Hi, Hj by done. eauto.
Qed.

(** ** Equations of the two link views *)

Lemma next_id_fresh {V} (t : gmap Z V) : t !! next_id t = None.
Proof.
  destruct (t !! next_id t) as [v|] eqn:E; [exfalso|done].
  apply elem_of_map_to_list in E.
  assert (H : ∀ (l : list (Z * V)) k v, (k, v) ∈ l → k ≤ foldr Z.max 0 l.*1).
  { clear. induction l as [|[k' v'] l IH]; intros k v; [by rewrite elem_of_nil|].
    rewrite elem_of_cons. intros [[= -> ->]|Hin]; cbn; [lia|].
    specialize (IH _ _ Hin). lia. }
  apply H in E. unfold next_id in E. lia.
Qed.

Lemma token_in_use_spec tok (t : gmap Z AccessLink) :
  token_in_use tok t = true ↔ ∃ i l, t !! i = Some l ∧ token l = tok.
Proof.
  unfold token_in_use. rewrite bool_decide_eq_true, Exists_exists. split.
  - intros ([i l] & Hin%elem_of_map_to_list & Htok). eauto.
  - intros (i & l & Hin & Htok). exists (i, l). by rewrite elem_of_map_to_list.
Qed.

Lemma token_in_use_deactivate tok (t : gmap Z AccessLink) :
  token_in_use tok (deactivate <$> t) = token_in_use tok t.
Proof.
  apply eq_true_iff_eq. rewrite !token_in_use_spec. split.
  - intros (i & l & Hl & Htok). rewrite lookup_fmap in Hl.
    destruct (t !! i) as [l'|] eqn:E; [|done]. injection Hl as <-. eauto.
  - intros (i & l & Hl & Htok). exists i, (deactivate l).
    rewrite lookup_fmap, Hl. done.
Qed.

Lemma generate_link_body_eq req st :
  generate_link_body req st =
    if token_in_use (uuid4 req) (access_link st) then Raise (abort 500)
    else Ok (redirect "/admin/dashboard") (generated req st).
Proof.
  unfold generate_link_body. run_view.
  rewrite token_in_use_deactivate. by destruct (token_in_use _ _).
Qed.

Lemma toggle_link_status_body_eq link_id req st :
  toggle_link_status_body link_id req st =
    match access_link st !! link_id with
    | None =>
        Raise (abort (if bool_decide (- 2 ^ 63 ≤ link_id < 2 ^ 63) then 404 else 500))
    | Some l => Ok (redirect "/admin/dashboard") (toggled link_id l st)
    end.
Proof.
  unfold toggle_link_status_body, toggled. run_view.
  destruct (access_link st !! link_id) as [l|] eqn:E; [|by case_bool_decide].
  destruct (is_active l) eqn:Ea; cbn.
  - by rewrite (alter_as_insert _ _ _ l).
  - rewrite (alter_as_insert _ _ _ (deactivate l)) by (by rewrite lookup_fmap, E).
    done.
Qed.

Lemma link_view_preserves op st :
  at_most_one_active (access_link st) →
  at_most_one_active (access_link (serve (link_view op) st).2).
Proof.
  intros Hinv. destruct (logged_in st) eqn:Hlog.
  2:{ destruct op; cbn [link_view]; unfold generate_link, toggle_link_status;
      by rewrite login_required_refuses. }
  destruct op as [req|link_id req]; cbn [link_view];
    unfold generate_link, toggle_link_status, serve;
    rewrite login_required_admits by done.
  - rewrite generate_link_body_eq. destruct (token_in_use _ _); [done|].
    apply at_most_one_insert_after_deactivate.
  - rewrite toggle_link_status_body_eq.
    destruct (access_link st !! link_id) as [l|] eqn:E; [|done].
    unfold toggled. destruct (is_active l) eqn:Ea; cbn.
    + by apply at_most_one_switch_off.
    + apply at_most_one_insert_after_deactivate.
Qed.

(** C1.  Starting from a state with at most one active link, every state
    reached by a sequence of [generate_link] and [toggle_link_status] requests
    has at most one row of [AccessLink] with [is_active = true]. *)
Theorem single_active_link_invariant (ops : list link_op) (st : state) :
  (count_active (access_link st) ≤ 1)%nat →
  Forall (λ st', (count_active (access_link st') ≤ 1)%nat) (states_after ops st).
Proof.
  revert st. induction ops as [|op ops IH]; intros st Hinv; cbn [states_after].
  - constructor.
  - assert (Hnext : (count_active (access_link (serve (link_view op) st).2) ≤ 1)%nat).
    { apply count_active_le_1, link_view_preserves, count_active_le_1, Hinv. }
    constructor; [exact Hnext|]. by apply IH.
Qed.

Lemma single_active_link_invariant_witness :
  (count_active (access_link after_B) ≤ 1)%nat ∧
  Forall (λ st', (count_active (access_link st') ≤ 1)%nat)
    (states_after
       [ToggleLink 2 (sample_request POST [] [] "" later);
        ToggleLink 1 (sample_request POST [] [] "" later);
        GenerateLink (sample_request POST [] [] "tok-C" later);
        ToggleLink 9 (sample_request POST [] [] "" later)]
       after_B).
Proof.
  assert (H : (count_active (access_link after_B) ≤ 1)%nat) by (vm_compute; lia).
  split; [exact H|]. apply single_active_link_invariant. exact H.
Defined.

(** ** Registration *)

Lemma no_active_link_found tok (t : gmap Z AccessLink) :
  ¬ accepts tok t →
  head (filter (λ kv : Z * AccessLink, token kv.2 = tok ∧ is_active kv.2 = true)
          (map_to_list t)) = None.
Proof.
  intros Hno. apply head_None.
  destruct (filter _ _) as [|[id l] rest] eqn:E; [done|exfalso].
  assert (Hin : (id, l) ∈ filter (λ kv : Z * AccessLink, token kv.2 = tok ∧ is_active kv.2 = true)
                  (map_to_list t)) by (rewrite E; left).
  apply list_elem_of_filter in Hin as [[Htok Hact] Hin%elem_of_map_to_list].
  apply Hno. by exists id, l.
Qed.

Lemma active_link_found tok (t : gmap Z AccessLink) :
  accepts tok t →
  is_Some (head (filter (λ kv : Z * AccessLink, token kv.2 = tok ∧ is_active kv.2 = true)
                   (map_to_list t))).
Proof.
  intros (id & l & Hl & Htok & Hact). apply head_is_Some.
  intros E. eapply (filter_nil_not_elem_of _ _ (id, l)) in E; [|done].
  by apply E, elem_of_map_to_list.
Qed.

(** C2.  When no active link carries the token, [register] answers the
    invalid-link page with status 404 and leaves the state, hence the
    [Attendee] table, as it was; the answer depends on the tables as they are
    when the request is served, for a POST as for a GET. *)
Theorem register_inactive_token_not_found (tok : string) (req : request) (st : state) :
  ¬ accepts tok (access_link st) →
  serve (register tok req) st = (render_template invalid_link_html 404, st).
Proof.
  intros Hno. unfold register. run_view.
  by rewrite (no_active_link_found _ _ Hno).
Qed.

Lemma register_inactive_token_not_found_witness :
  ¬ accepts "tok-A" (access_link after_B) ∧
  serve (register "tok-A"
           (sample_request POST [("name", "Jo"); ("role", "Guest")] [] "" later)) after_B
  = (render_template invalid_link_html 404, after_B).
Proof.
  assert (H : ¬ accepts "tok-A" (access_link after_B)).
  { intros (id & l & Hl & Htok & Hact).
    assert (Hin : (id, l) ∈ map_to_list (access_link after_B))
      by (by apply elem_of_map_to_list).
    vm_compute in Hin.
    repeat (apply elem_of_cons in Hin as [[= -> ->]|Hin]; [discriminate|]).
    by apply elem_of_nil in Hin. }
  split; [exact H|]. apply register_inactive_token_not_found. exact H.
Defined.

Lemma url_unquote_quote_char (c : ascii) (rest : string) :
  url_unquote (url_quote_char c rest) = String c (url_unquote rest).
Proof.
  destruct c as [[] [] [] [] [] [] [] []];
    first [ reflexivity | by destruct rest as [|h [|l rest]] ].
Qed.

Lemma url_unquote_quote (s : string) : url_unquote (url_quote s) = s.
Proof.
  induction s as [|c s IH]; [done|]. cbn [url_quote].
  by rewrite url_unquote_quote_char, IH.
Qed.

Lemma url_quote_plain (s : string) : url_plain s = true → url_quote s = s.
Proof.
  induction s as [|c s IH]; [done|]. cbn [url_plain url_quote].
  intros [Hc Hs]%andb_true_iff. unfold url_quote_char. by rewrite Hc, IH.
Qed.

(** C4.  With an active link for the token, a POST whose [name] or [role] is
    missing or empty adds no [Attendee] row: the view flashes the error and
    redirects to the URL of [register] for this token, [/register/] followed
    by the percent-encoded token (the token itself when it is made of
    letters, digits and hyphens, as the generated ones are).  Decoding the
    path gives the token back, and a GET on it renders the form again for the
    same token. *)
Theorem register_blank_field_rejected (tok : string) (req : request) (st : state) :
  accepts tok (access_link st) →
  method req = POST →
  blank (form req !! "name") ∨ blank (form req !! "role") →
  serve (register tok req) st
    = (redirect (url_for (ep_register tok)), refused_registration st)
  ∧ url_for (ep_register tok) = "/register/" +:+ url_quote tok
  ∧ url_unquote (url_quote tok) = tok
  ∧ (url_plain tok = true → url_for (ep_register tok) = "/register/" +:+ tok)
  ∧ attendee (refused_registration st) = attendee st
  ∧ ∀ req', method req' = GET →
      serve (register (url_unquote (url_quote tok)) req') (refused_registration st)
      = (render_template (register_html tok roles) 200, refused_registration st).
Proof.
  intros Hacc Hpost Hblank.
  destruct (active_link_found _ _ Hacc) as [kv Hkv].
  split; [|split; [done|split; [apply url_unquote_quote|split; [|split; [done|]]]]].
  - unfold register. run_view. rewrite Hkv, Hpost. cbn [url_for].
    destruct Hblank as [[Hn|Hn]|[Hr|Hr]].
    + by rewrite Hn.
    + by rewrite Hn; destruct (form req !! "role").
    + by rewrite Hr; destruct (form req !! "name").
    + rewrite Hr. destruct (form req !! "name") as [nm|]; [|done].
      by rewrite orb_true_r.
  - intros Hplain. cbn [url_for]. by rewrite url_quote_plain.
  - intros req' Hget. rewrite url_unquote_quote. unfold register. run_view.
    unfold refused_registration. cbn. by rewrite Hkv, Hget.
Qed.

Lemma after_B_accepts_tok_B : accepts "tok-B" (access_link after_B).
Proof. exists 2, (mk_AccessLink "tok-B" true later). by vm_compute. Qed.

Lemma register_blank_field_rejected_witness :
  serve (register "tok-B"
           (sample_request POST [("name", ""); ("role", "Guest")] [] "" later)) after_B
    = (redirect "/register/tok-B", refused_registration after_B)
  ∧ url_unquote (url_quote "tok-B") = "tok-B"
  ∧ attendee (refused_registration after_B) = attendee after_B
  ∧ ∀ req', method req' = GET →
      serve (register "tok-B" req') (refused_registration after_B)
      = (render_template (register_html "tok-B" roles) 200, refused_registration after_B).
Proof.
  destruct (register_blank_field_rejected "tok-B"
              (sample_request POST [("name", ""); ("role", "Guest")] [] "" later) after_B)
    as (H1 & _ & H3 & _ & H5 & H6).
  - exact after_B_accepts_tok_B.
  - reflexivity.
  - left. right. reflexivity.
  - split; [exact H1|]. split; [exact H3|]. split; [exact H5|]. exact H6.
Defined.

(** ** The guard on the admin views *)

Lemma guarded_view_refuses (op : admin_op) (req : request) (st : state) :
  op ≠ op_logout → logged_in st = false →
  serve (admin_view op req) st = unauthorized st.
Proof.
  intros Hop Hout.
  destruct op; [done|..]; cbn [admin_view];
    unfold admin_dashboard, generate_link, toggle_link_status, export_csv;
    by apply login_required_refuses.
Qed.

Lemma admin_logout_eq (req : request) (st : state) :
  serve (admin_logout req) st = (redirect "/admin/login", logged_out st).
Proof. reflexivity. Qed.

(** C3, as the spec has it, fails: [admin_logout] is not behind the guard.
    An anonymous session that calls it is not answered as unauthorized; the
    view runs and reports a logout. *)
Lemma logout_runs_without_session :
  logged_in anonymous = false
  ∧ serve (admin_view op_logout (sample_request GET [] [] "" noon)) anonymous
    ≠ unauthorized anonymous.
Proof. split; [reflexivity|]. vm_compute. discriminate. Qed.

(** C3, amended.  Without the session flag, [admin_dashboard],
    [generate_link], [toggle_link_status] and [export_csv] do not run: the
    guard flashes its warning and redirects to [/admin/login], and both tables
    and the session flag stay as they were.  [admin_logout] has no guard: for
    every session, with the flag or without it, it removes the flag, flashes
    the logout message and redirects to [/admin/login], leaving both tables
    as they were. *)
Theorem admin_views_require_login (op : admin_op) (req : request) (st : state) :
  let out := serve (admin_view op req) st in
  match op with
  | op_logout =>
      out = (redirect (url_for ep_admin_login), logged_out st)
      ∧ admin_logged_in out.2 = None
      ∧ logged_in out.2 = false
      ∧ access_link out.2 = access_link st
      ∧ attendee out.2 = attendee st
  | _ =>
      logged_in st = false →
      out = unauthorized st
      ∧ out.1 = redirect (url_for ep_admin_login)
      ∧ access_link out.2 = access_link st
      ∧ attendee out.2 = attendee st
      ∧ admin_logged_in out.2 = admin_logged_in st
      ∧ logged_in out.2 = false
  end.
Proof.
  cbn zeta. destruct op; [by rewrite admin_logout_eq|..];
    intros Hout; by rewrite guarded_view_refuses.
Qed.

Lemma admin_views_require_login_witness :
  logged_in (logged_out after_B) = false
  ∧ serve (toggle_link_status 1 (sample_request POST [] [] "" noon)) (logged_out after_B)
    = unauthorized (logged_out after_B)
  ∧ logged_in after_B = true
  ∧ serve (admin_logout (sample_request GET [] [] "" noon)) after_B
    = (redirect "/admin/login", logged_out after_B).
Proof.
  split; [reflexivity|]. split.
  - apply (admin_views_require_login (op_toggle_link 1)
             (sample_request POST [] [] "" noon) (logged_out after_B)).
    reflexivity.
  - split; [reflexivity|].
    apply (admin_views_require_login op_logout (sample_request GET [] [] "" noon) after_B).
Defined.

(** ** Toggling a link *)

Lemma count_active_switch_off (t : gmap Z AccessLink) k l :
  at_most_one_active t → t !! k = Some l → is_active l = true →
  count_active (<[k := set_is_active false l]> t) = 0%nat.
Proof.
  intros Hinv Hk Hl. unfold count_active.
  apply map_size_empty_iff, map_empty_filter.
  intros i x Hi Hx. cbn in Hx.
  destruct (decide (k = i)) as [->|Hne].
  - rewrite lookup_insert_eq in Hi. by injection Hi as <-.
  - rewrite lookup_insert_ne in Hi by done. by specialize (Hinv k i l x Hk Hi Hl Hx).
Qed.

(** The cases of [toggle_link_status] for a logged-in admin.  When no row has
    the id, the view aborts: with 404 for an id in the 64-bit range of the
    database, with 500 for an id beyond it.  When the row is inactive, every
    row is set inactive and then this row active.  When the row is active,
    this row alone is set inactive, and if it was the only active row no
    active row is left. *)
Lemma toggle_link_status_cases (link_id : Z) (req : request) (st : state) :
  logged_in st = true →
  let out := serve (toggle_link_status link_id req) st in
  match access_link st !! link_id with
  | None =>
      out = (abort (if bool_decide (- 2 ^ 63 ≤ link_id < 2 ^ 63) then 404 else 500), st)
  | Some l =>
      out.1 = redirect "/admin/dashboard"
      ∧ attendee out.2 = attendee st
      ∧ if is_active l then
          access_link out.2 = <[link_id := set_is_active false l]> (access_link st)
          ∧ (at_most_one_active (access_link st) →
             count_active (access_link out.2) = 0%nat)
        else
          access_link out.2
          = <[link_id := set_is_active true l]> (set_is_active false <$> access_link st)
  end.
Proof.
  intros Hin. cbn zeta. unfold toggle_link_status, serve.
  rewrite login_required_admits, toggle_link_status_body_eq by done.
  destruct (access_link st !! link_id) as [l|] eqn:E; [|done].
  unfold toggled. destruct (is_active l) eqn:Ea; cbn; repeat split; try done.
  intros Hinv. by apply count_active_switch_off.
Qed.

Lemma toggle_link_status_cases_witness :
  logged_in after_B = true
  ∧ access_link after_B !! 1 = Some (mk_AccessLink "tok-A" false noon)
  ∧ access_link (serve (toggle_link_status 1 (sample_request POST [] [] "" later)) after_B).2
    = <[1 := mk_AccessLink "tok-A" true noon]> (set_is_active false <$> access_link after_B).
Proof.
  split; [reflexivity|]. split; [reflexivity|].
  apply (toggle_link_status_cases 1 (sample_request POST [] [] "" later) after_B).
  reflexivity.
Defined.

(** C5, where the code departs from it.  No link has the id [2^63], which the
    route [/admin/toggle-link/<int:link_id>] accepts; the logged-in admin who
    posts it is answered 500, not 404: the lookup overflows the integers of
    the database before any row is searched.  An id one below is answered
    404. *)
Lemma toggle_link_status_id_overflow :
  logged_in after_B = true
  ∧ access_link after_B !! 9223372036854775808 = None
  ∧ serve (toggle_link_status 9223372036854775808 (sample_request POST [] [] "" later))
          after_B
    = (abort 500, after_B)
  ∧ serve (toggle_link_status 9223372036854775807 (sample_request POST [] [] "" later))
          after_B
    = (abort 404, after_B).
Proof. repeat split; reflexivity. Qed.

(** ** Generating a link *)

Lemma generate_link_eq (req : request) (st : state) :
  logged_in st = true →
  token_in_use (uuid4 req) (access_link st) = false →
  serve (generate_link req) st = (redirect "/admin/dashboard", generated req st).
Proof.
  intros Hin Hfresh. unfold generate_link, serve.
  by rewrite login_required_admits, generate_link_body_eq, Hfresh.
Qed.

Lemma generated_lookup_old (req : request) (st : state) id l :
  access_link st !! id = Some l →
  access_link (generated req st) !! id = Some (set_is_active false l).
Proof.
  intros Hl. cbn.
  rewrite lookup_insert_ne, lookup_fmap, Hl; [done|].
  intros <-. pose proof (next_id_fresh (deactivate <$> access_link st)) as Hf.
  by rewrite lookup_fmap, Hl in Hf.
Qed.

Lemma generated_lookup_new (req : request) (st : state) :
  access_link (generated req st) !! next_id (deactivate <$> access_link st)
  = Some (mk_AccessLink (uuid4 req) true (utcnow req)).
Proof. cbn. apply lookup_insert_eq. Qed.

(** C6.  For a logged-in admin and a token no row carries yet,
    [generate_link] sets every existing row inactive and adds exactly one row,
    under a new id, with that token and [is_active = true].  Hence after
    generating link A and then link B, A is inactive and B is active. *)
Theorem generate_link_rotates :
  (∀ (req : request) (st : state),
     logged_in st = true →
     token_in_use (uuid4 req) (access_link st) = false →
     let st' := (serve (generate_link req) st).2 in
     ∃ new_id,
       access_link st !! new_id = None
       ∧ access_link st'
         = <[new_id := mk_AccessLink (uuid4 req) true (utcnow req)]>
             (set_is_active false <$> access_link st)
       ∧ (∀ id l, access_link st !! id = Some l →
            access_link st' !! id = Some (set_is_active false l))
       ∧ size (access_link st') = S (size (access_link st))
       ∧ attendee st' = attendee st)
  ∧ (∀ (reqA reqB : request) (st : state),
       logged_in st = true →
       token_in_use (uuid4 reqA) (access_link st) = false →
       token_in_use (uuid4 reqB) (access_link st) = false →
       uuid4 reqA ≠ uuid4 reqB →
       let stA := (serve (generate_link reqA) st).2 in
       let stB := (serve (generate_link reqB) stA).2 in
       ∃ a b, a ≠ b
         ∧ access_link stA !! a = Some (mk_AccessLink (uuid4 reqA) true (utcnow reqA))
         ∧ access_link stB !! a = Some (mk_AccessLink (uuid4 reqA) false (utcnow reqA))
         ∧ access_link stB !! b = Some (mk_AccessLink (uuid4 reqB) true (utcnow reqB))).
Proof.
  split.
  - intros req st Hin Hfresh. cbn zeta. rewrite generate_link_eq by done.
    exists (next_id (deactivate <$> access_link st)).
    pose proof (next_id_fresh (deactivate <$> access_link st)) as Hf.
    assert (Hnone : access_link st !! next_id (deactivate <$> access_link st) = None).
    { rewrite lookup_fmap in Hf. by destruct (access_link st !! _). }
    repeat split; try done.
    + intros id l. apply generated_lookup_old.
    + cbn. rewrite map_size_insert_None by done. by rewrite map_size_fmap.
  - intros reqA reqB st Hin HA HB Hne. cbn zeta.
    rewrite (generate_link_eq reqA st) by done. cbn [snd].
    assert (HB' : token_in_use (uuid4 reqB) (access_link (generated reqA st)) = false).
    { apply not_true_is_false. rewrite token_in_use_spec.
      intros (i & l & Hl & Htok). cbn in Hl.
      apply lookup_insert_Some in Hl as [[_ <-]|[_ Hl]]; [by apply Hne|].
      rewrite lookup_fmap in Hl.
      destruct (access_link st !! i) as [l0|] eqn:E; [|done]. injection Hl as <-.
      apply not_true_iff_false in HB. apply HB, token_in_use_spec. eauto. }
    rewrite (generate_link_eq reqB (generated reqA st)) by done. cbn [snd].
    exists (next_id (deactivate <$> access_link st)),
           (next_id (deactivate <$> access_link (generated reqA st))).
    pose proof (generated_lookup_new reqA st) as Ha.
    split; [|split; [exact Ha|split]].
    + intros Heq.
      pose proof (next_id_fresh (deactivate <$> access_link (generated reqA st))) as Hf.
      rewrite <- Heq, lookup_fmap, Ha in Hf. done.
    + by rewrite (generated_lookup_old reqB _ _ _ Ha).
    + apply generated_lookup_new.
Qed.

Lemma generate_link_rotates_witness :
  ∃ a b, a ≠ b
    ∧ access_link after_A !! a = Some (mk_AccessLink "tok-A" true noon)
    ∧ access_link after_B !! a = Some (mk_AccessLink "tok-A" false noon)
    ∧ access_link after_B !! b = Some (mk_AccessLink "tok-B" true later).
Proof.
  apply (proj2 generate_link_rotates
           (sample_request POST [] [] "tok-A" noon)
           (sample_request POST [] [] "tok-B" later) admin);
    [reflexivity|reflexivity|reflexivity|discriminate].
Defined.

(** ** Roster *)

Lemma admin_dashboard_guarded (req : request) (st : state) :
  serve (admin_dashboard req) st =
    if logged_in st then serve (admin_dashboard_body req) st else unauthorized st.
Proof.
  unfold admin_dashboard. destruct (logged_in st) eqn:E.
  - unfold serve. by rewrite login_required_admits.
  - by apply login_required_refuses.
Qed.

(** C7.  A [sort_by] outside [name], [role], [group], [timestamp] gives the
    answer of [sort_by = timestamp]; an [order] other than [asc] and [desc]
    lists the same attendees in the same order, the same links and the same
    active link as [order = desc], and leaves the same state. *)
Theorem dashboard_sort_fallbacks (req : request) (st : state) :
  (∀ s, args req !! "sort_by" = Some s → s ∉ sortable_columns →
     serve (admin_dashboard req) st
     = serve (admin_dashboard (set_arg "sort_by" "timestamp" req)) st)
  ∧ (∀ o, args req !! "order" = Some o → o ≠ "asc" → o ≠ "desc" →
       listing (serve (admin_dashboard req) st).1
       = listing (serve (admin_dashboard (set_arg "order" "desc" req)) st).1
       ∧ (serve (admin_dashboard req) st).2
         = (serve (admin_dashboard (set_arg "order" "desc" req)) st).2).
Proof.
  split.
  - intros s Hs Hout. rewrite !admin_dashboard_guarded.
    destruct (logged_in st); [|done].
    unfold admin_dashboard_body, set_arg. cbn [args].
    rewrite Hs, lookup_insert_eq, lookup_insert_ne by done. cbn [default].
    rewrite (bool_decide_eq_true_2 _ Hout). done.
  - intros o Ho Hasc Hdesc. rewrite !admin_dashboard_guarded.
    destruct (logged_in st); [|done].
    unfold admin_dashboard_body, set_arg. cbn [args].
    rewrite Ho, lookup_insert_eq, lookup_insert_ne by done. cbn [default].
    rewrite (bool_decide_eq_false_2 _ Hasc).
    rewrite (bool_decide_eq_false_2 ("desc" = "asc")) by done.
    run_view. by destruct (getattr_Attendee _).
Qed.

(** After the fallback, [getattr] always finds the column. *)
Lemma getattr_after_fallback (s : string) :
  is_Some (getattr_Attendee (if bool_decide (s ∉ sortable_columns) then "timestamp" else s)).
Proof.
  case_bool_decide as Hs; [by eexists|].
  unfold sortable_columns in Hs.
  repeat (apply elem_of_cons in Hs as [->|Hs]; [by eexists|]).
  by apply elem_of_nil in Hs.
Qed.

(** The template also receives the [order] argument as it was sent. *)
Remark dashboard_order_passed_on (req : request) (st : state) (o : string) :
  logged_in st = true → args req !! "order" = Some o →
  ∃ attendees links active_link sort_by,
    (serve (admin_dashboard req) st).1
    = render_template (admin_dashboard_html attendees links active_link sort_by o) 200.
Proof.
  intros Hin Ho. rewrite admin_dashboard_guarded, Hin.
  unfold admin_dashboard_body. rewrite Ho. cbn [default].
  destruct (getattr_after_fallback (default "timestamp" (args req !! "sort_by")))
    as [col Hcol].
  run_view. rewrite Hcol. cbn. eauto.
Qed.

Lemma dashboard_sort_fallbacks_witness :
  serve (admin_dashboard
           (sample_request GET [] [("sort_by", "id"); ("order", "up")] "" later)) with_Al
  = serve (admin_dashboard
             (set_arg "sort_by" "timestamp"
                (sample_request GET [] [("sort_by", "id"); ("order", "up")] "" later))) with_Al
  ∧ listing (serve (admin_dashboard
               (sample_request GET [] [("sort_by", "id"); ("order", "up")] "" later))
               with_Al).1
    = listing (serve (admin_dashboard
                 (set_arg "order" "desc"
                    (sample_request GET [] [("sort_by", "id"); ("order", "up")] "" later)))
                 with_Al).1.
Proof.
  destruct (dashboard_sort_fallbacks
              (sample_request GET [] [("sort_by", "id"); ("order", "up")] "" later) with_Al)
    as [Hs Ho].
  split.
  - apply (Hs "id"); [reflexivity|]. apply (bool_decide_unpack _). by vm_compute.
  - apply (Ho "up"); [reflexivity|discriminate|discriminate].
Defined.

(** ** Admin login *)

Lemma admin_login_eq (environ : gmap string string) (req : request) (st : state) :
  serve (admin_login environ req) st =
    if logged_in st then (redirect "/admin/dashboard", st)
    else match method req with
         | GET => (render_template admin_login_html 200, st)
         | POST =>
             if bool_decide (form req !! "username" = Some (ADMIN_USERNAME environ))
                && bool_decide (form req !! "password" = Some (ADMIN_PASSWORD environ))
             then (redirect "/admin/dashboard",
                   mk_state (access_link st) (attendee st) (Some true)
                     (flashes st ++ [("Login successful!", "success")]))
             else (render_template admin_login_html 200, failed_login st)
         end.
Proof.
  unfold admin_login, logged_in. run_view.
  destruct (default false (admin_logged_in st)); [done|].
  destruct (method req); [done|].
  by destruct (_ && _).
Qed.

(** C9.  For a session without the flag, a POST to [/admin/login] sets
    [admin_logged_in] to true exactly when the submitted username is the
    configured username and the submitted password the configured password,
    both compared as plain strings.  Every other submission leaves the flag
    as it was and gets one and the same answer: the login page with the flash
    [Invalid credentials. Please try again.], whichever field was wrong. *)
Theorem admin_login_checks_credentials
    (environ : gmap string string) (req : request) (st : state) :
  logged_in st = false →
  method req = POST →
  let out := serve (admin_login environ req) st in
  let matches :=
    form req !! "username" = Some (ADMIN_USERNAME environ)
    ∧ form req !! "password" = Some (ADMIN_PASSWORD environ) in
  (admin_logged_in out.2 = Some true ↔ matches)
  ∧ (¬ matches →
       out = (render_template admin_login_html 200, failed_login st)
       ∧ admin_logged_in out.2 = admin_logged_in st).
Proof.
  intros Hout Hpost. cbn zeta. rewrite admin_login_eq, Hout, Hpost.
  destruct (bool_decide _ && bool_decide _) eqn:E.
  - apply andb_true_iff in E as [Hu%bool_decide_eq_true Hp%bool_decide_eq_true].
    split; [done|]. intros []; done.
  - assert (Hno : ¬ (form req !! "username" = Some (ADMIN_USERNAME environ)
                     ∧ form req !! "password" = Some (ADMIN_PASSWORD environ))).
    { intros [Hu Hp]. by rewrite !bool_decide_eq_true_2 in E. }
    split; [|done]. cbn. split; [|done].
    intros Hflag. unfold logged_in in Hout. by rewrite Hflag in Hout.
Qed.

Lemma admin_login_checks_credentials_witness :
  admin_logged_in
    (serve (admin_login ∅
              (sample_request POST [("username", "admin"); ("password", "password")]
                 [] "" noon)) anonymous).2
  = Some true.
Proof.
  apply (admin_login_checks_credentials ∅
           (sample_request POST [("username", "admin"); ("password", "password")] [] "" noon)
           anonymous); [reflexivity|reflexivity|].
  split; reflexivity.
Defined.

(** C10.  With the session flag set, [admin_login] answers every request, a
    GET as well as a POST with any form, by the redirect to the dashboard;
    the submitted credentials are not looked at and the state, the flag
    included, is unchanged. *)
Theorem admin_login_when_logged_in
    (environ : gmap string string) (req : request) (st : state) :
  logged_in st = true →
  serve (admin_login environ req) st = (redirect (url_for ep_admin_dashboard), st)
  ∧ logged_in (serve (admin_login environ req) st).2 = true.
Proof. intros Hin. rewrite admin_login_eq, Hin. done. Qed.

Lemma admin_login_when_logged_in_witness :
  serve (admin_login ∅
           (sample_request POST [("username", "admin"); ("password", "wrong")] [] "" noon))
        after_B
  = (redirect (url_for ep_admin_dashboard), after_B)
  ∧ logged_in
      (serve (admin_login ∅
                (sample_request POST [("username", "admin"); ("password", "wrong")] [] "" noon))
             after_B).2 = true.
Proof. apply admin_login_when_logged_in. reflexivity. Defined.

(** ** CSV export *)

(** *** Strings *)

Lemma append_assoc (s1 s2 s3 : string) : (s1 +:+ s2) +:+ s3 = s1 +:+ (s2 +:+ s3).
Proof.
  induction s1 as [|c s1 IH]; [done|].
  change (String c ((s1 +:+ s2) +:+ s3) = String c (s1 +:+ (s2 +:+ s3))). by f_equal.
Qed.

Lemma append_nil_r (s : string) : s +:+ "" = s.
Proof.
  induction s as [|c s IH]; [done|].
  change (String c (s +:+ "") = String c s). by f_equal.
Qed.

Lemma writerow_loop (rows : list (Z * Attendee)) (output : string) :
  foldl (λ out a, csv.writerow out (csv_row a)) output rows
  = output +:+ concat_lines (csv_line ∘ csv_row <$> rows).
Proof.
  revert output. induction rows as [|a rows IH]; intros output; cbn.
  - by rewrite append_nil_r.
  - rewrite IH. unfold csv.writerow, csv_line. by rewrite !append_assoc.
Qed.

Lemma header_line_written : csv.writerow "" csv_header = header_line.
Proof. reflexivity. Qed.

(** *** Order of the rows *)

Lemma cmp_then_opp (c d : comparison) :
  CompOpp (cmp_then c d) = cmp_then (CompOpp c) (CompOpp d).
Proof. by destruct c. Qed.

Lemma datetime_compare_antisym (a b : datetime) :
  datetime_compare b a = CompOpp (datetime_compare a b).
Proof.
  unfold datetime_compare. rewrite !cmp_then_opp.
  by rewrite <- !Z.compare_antisym.
Qed.

Lemma cmp_then_not_Lt_trans (x y z : Z) (c1 c2 c3 : comparison) :
  (c1 ≠ Lt → c2 ≠ Lt → c3 ≠ Lt) →
  cmp_then (x ?= y) c1 ≠ Lt → cmp_then (y ?= z) c2 ≠ Lt → cmp_then (x ?= z) c3 ≠ Lt.
Proof.
  intros Hc.
  destruct (Z.compare_spec x y), (Z.compare_spec y z), (Z.compare_spec x z);
    cbn; try done; try lia; auto.
Qed.

Lemma Z_compare_not_Lt_trans (x y z : Z) :
  (x ?= y) ≠ Lt → (y ?= z) ≠ Lt → (x ?= z) ≠ Lt.
Proof. rewrite !Z.compare_nlt_iff. lia. Qed.

#[local] Instance newest_first_total : Total newest_first.
Proof.
  intros a b. unfold newest_first.
  rewrite (datetime_compare_antisym (timestamp a.2) (timestamp b.2)).
  destruct (datetime_compare _ _); cbn; auto.
Qed.

#[local] Instance newest_first_trans : Transitive newest_first.
Proof.
  intros a b c. unfold newest_first, datetime_compare.
  repeat apply cmp_then_not_Lt_trans. apply Z_compare_not_Lt_trans.
Qed.

(** *** Layout of the timestamps *)

Lemma matches_app (l1 l2 : list position) (s1 s2 : string) :
  matches l1 s1 = true → matches l2 s2 = true → matches (l1 ++ l2) (s1 +:+ s2) = true.
Proof.
  revert s1. induction l1 as [|p l1 IH]; intros [|c s1] H1 H2.
  - exact H2.
  - discriminate.
  - destruct p; discriminate.
  - change (matches (p :: (l1 ++ l2)) (String c (s1 +:+ s2)) = true).
    destruct p; cbn [matches] in *;
      apply andb_true_iff in H1 as [-> H1]; cbn [andb]; auto.
Qed.

Lemma two_digits_below_100 : forallb two_digits (seqZ 0 100) = true.
Proof. by vm_compute. Qed.

Lemma four_digits_from_1000 : forallb four_digits (seqZ 1000 9000) = true.
Proof. by vm_compute. Qed.

Lemma zfill_2_read_back (x : Z) :
  0 ≤ x < 100 →
  ∃ a b, zfill 2 (pretty x) = String a (String b EmptyString)
         ∧ is_digit a = true ∧ is_digit b = true
         ∧ number (String a (String b EmptyString)) = x.
Proof.
  intros Hx. pose proof two_digits_below_100 as H.
  rewrite forallb_forall in H. specialize (H x).
  unfold two_digits in H.
  destruct (zfill 2 (pretty x)) as [|a [|b [|]]];
    try (discriminate H; apply list_elem_of_In, elem_of_seqZ; lia).
  exists a, b. split; [done|].
  assert (Ht : is_digit a && is_digit b && (number (String a (String b "")) =? x) = true)
    by (apply H, list_elem_of_In, elem_of_seqZ; lia).
  apply andb_true_iff in Ht as [[Ha Hb]%andb_true_iff Hn%Z.eqb_eq]. done.
Qed.

Lemma pretty_4_read_back (x : Z) :
  1000 ≤ x ≤ 9999 →
  ∃ a b c d, pretty x = String a (String b (String c (String d EmptyString)))
             ∧ is_digit a = true ∧ is_digit b = true
             ∧ is_digit c = true ∧ is_digit d = true
             ∧ number (String a (String b (String c (String d EmptyString)))) = x.
Proof.
  intros Hx. pose proof four_digits_from_1000 as H.
  rewrite forallb_forall in H. specialize (H x).
  unfold four_digits in H.
  destruct (pretty x) as [|a [|b [|c [|d [|]]]]];
    try (discriminate H; apply list_elem_of_In, elem_of_seqZ; lia).
  exists a, b, c, d. split; [done|].
  assert (Ht : is_digit a && is_digit b && is_digit c && is_digit d
               && (number (String a (String b (String c (String d "")))) =? x) = true)
    by (apply H, list_elem_of_In, elem_of_seqZ; lia).
  apply andb_true_iff in Ht as [Ht Hn%Z.eqb_eq].
  apply andb_true_iff in Ht as [Ht Hd]. apply andb_true_iff in Ht as [Ht Hc].
  apply andb_true_iff in Ht as [Ha Hb]. done.
Qed.

(** The text [strftime] writes for a timestamp with a four-digit year, digit
    by digit. *)
Lemma strftime_digits (dt : datetime) :
  valid_datetime dt →
  ∃ y1 y2 y3 y4 m1 m2 d1 d2 h1 h2 n1 n2 s1 s2,
    strftime dt
    = String y1 (String y2 (String y3 (String y4 (String "-"
       (String m1 (String m2 (String "-"
       (String d1 (String d2 (String " "
       (String h1 (String h2 (String ":"
       (String n1 (String n2 (String ":"
       (String s1 (String s2 EmptyString))))))))))))))))))
    ∧ Forall (λ c, is_digit c = true) [y1; y2; y3; y4; m1; m2; d1; d2; h1; h2; n1; n2; s1; s2]
    ∧ number (String y1 (String y2 (String y3 (String y4 EmptyString)))) = year dt
    ∧ number (String m1 (String m2 EmptyString)) = month dt
    ∧ number (String d1 (String d2 EmptyString)) = day dt
    ∧ number (String h1 (String h2 EmptyString)) = hour dt
    ∧ number (String n1 (String n2 EmptyString)) = minute dt
    ∧ number (String s1 (String s2 EmptyString)) = second dt.
Proof.
  intros (Hy & Hm & Hd & HH & HM & HS & _).
  destruct (pretty_4_read_back (year dt)) as (y1 & y2 & y3 & y4 & Ey & ? & ? & ? & ? & ?);
    [lia|].
  destruct (zfill_2_read_back (month dt)) as (m1 & m2 & Em & ? & ? & ?); [lia|].
  destruct (zfill_2_read_back (day dt)) as (d1 & d2 & Ed & ? & ? & ?); [lia|].
  destruct (zfill_2_read_back (hour dt)) as (h1 & h2 & EH & ? & ? & ?); [lia|].
  destruct (zfill_2_read_back (minute dt)) as (n1 & n2 & EM & ? & ? & ?); [lia|].
  destruct (zfill_2_read_back (second dt)) as (s1 & s2 & ES & ? & ? & ?); [lia|].
  exists y1, y2, y3, y4, m1, m2, d1, d2, h1, h2, n1, n2, s1, s2.
  split; [|split; [repeat constructor; done|done]].
  unfold strftime. by rewrite Ey, Em, Ed, EH, EM, ES.
Qed.

Lemma strftime_layout (dt : datetime) :
  valid_datetime dt → matches timestamp_layout (strftime dt) = true.
Proof.
  intros Hv.
  destruct (strftime_digits dt Hv)
    as (y1 & y2 & y3 & y4 & m1 & m2 & d1 & d2 & h1 & h2 & n1 & n2 & s1 & s2 & -> & Hd & _).
  unfold timestamp_layout. cbn [matches].
  repeat match goal with
         | H : Forall _ (_ :: _) |- _ => apply Forall_cons in H as [-> H]
         end.
  reflexivity.
Qed.

Lemma strftime_read_back (dt : datetime) :
  valid_datetime dt →
  read_timestamp (strftime dt)
  = Some (year dt, month dt, day dt, hour dt, minute dt, second dt).
Proof.
  intros Hv. unfold read_timestamp. rewrite (strftime_layout dt Hv).
  destruct (strftime_digits dt Hv)
    as (y1 & y2 & y3 & y4 & m1 & m2 & d1 & d2 & h1 & h2 & n1 & n2 & s1 & s2
        & -> & _ & <- & <- & <- & <- & <- & <-).
  reflexivity.
Qed.

Lemma is_digit_not_special (c : ascii) : is_digit c = true → csv.special c = false.
Proof. destruct c as [[] [] [] [] [] [] [] []]; vm_compute; congruence. Qed.

Lemma layout_needs_no_quotes (layout : list position) (s : string) :
  Forall (λ p, match p with digit => True | lit c => csv.special c = false end) layout →
  matches layout s = true → csv.needs_quotes s = false.
Proof.
  intros Hl. revert s. induction Hl as [|p layout Hp _ IH]; intros [|c s]; try done.
  cbn [matches csv.needs_quotes].
  destruct p; intros [Hc Hs]%andb_true_iff; rewrite (IH _ Hs), orb_false_r.
  - by apply is_digit_not_special.
  - apply bool_decide_eq_true in Hc. by subst.
Qed.

Lemma timestamp_written_plain (ts : string) :
  matches timestamp_layout ts = true → csv.field (cell_str ts) = ts.
Proof.
  intros H. unfold csv.field. cbn [csv.text].
  rewrite (layout_needs_no_quotes timestamp_layout); [done| |done].
  unfold timestamp_layout. repeat constructor.
Qed.

(** *** Records of the exported text *)

Lemma scan_app (s1 s2 : string) (q : bool) :
  scan q (s1 +:+ s2) = ((scan (scan q s1).1 s2).1, ((scan q s1).2 + (scan (scan q s1).1 s2).2)%nat).
Proof.
  revert q. induction s1 as [|c s1 IH]; intros q.
  - change ("" +:+ s2) with s2. cbn. by destruct (scan q s2).
  - change (String c s1 +:+ s2) with (String c (s1 +:+ s2)). cbn [scan].
    destruct (bool_decide (c = csv.quotechar)); [apply IH|].
    destruct (bool_decide (c = csv.LF) && negb q); [|apply IH].
    rewrite IH. destruct (scan false s1) as [q1 n1]. cbn.
    by destruct (scan q1 s2).
Qed.

Lemma scan_plain (s : string) (q : bool) :
  csv.needs_quotes s = false → scan q s = (q, 0%nat).
Proof.
  induction s as [|c s IH]; [done|]. cbn [csv.needs_quotes scan].
  intros [Hc Hs]%orb_false_iff. unfold csv.special in Hc.
  apply orb_false_iff in Hc as [[[_ Hq]%orb_false_iff _]%orb_false_iff HLF].
  rewrite Hq, HLF. cbn. auto.
Qed.

Lemma scan_escape (s : string) : scan true (csv.escape s) = (true, 0%nat).
Proof.
  induction s as [|c s IH]; [done|]. cbn [csv.escape].
  destruct (decide (c = csv.quotechar)) as [->|Hne].
  - rewrite bool_decide_eq_true_2 by done. cbn [scan].
    by rewrite !bool_decide_eq_true_2.
  - rewrite bool_decide_eq_false_2 by done. cbn [scan].
    by rewrite bool_decide_eq_false_2, andb_false_r.
Qed.

Lemma scan_field (c : cell) : scan false (csv.field c) = (false, 0%nat).
Proof.
  unfold csv.field. destruct (csv.needs_quotes (csv.text c)) eqn:E.
  - change (String csv.quotechar (csv.escape (csv.text c)) +:+ String csv.quotechar "")
      with (String csv.quotechar (csv.escape (csv.text c) +:+ String csv.quotechar "")).
    cbn [scan]. rewrite bool_decide_eq_true_2 by done. cbn [negb].
    by rewrite scan_app, scan_escape.
  - by apply scan_plain.
Qed.

Lemma scan_join_fields (fields : list string) :
  Forall (λ f, scan false f = (false, 0%nat)) fields →
  scan false (csv.join fields) = (false, 0%nat).
Proof.
  induction 1 as [|f rest Hf _ IH]; [done|].
  destruct rest as [|f' rest]; [exact Hf|].
  change (csv.join (f :: f' :: rest))
    with (f +:+ String csv.delimiter (csv.join (f' :: rest))).
  set (r := csv.join (f' :: rest)) in *.
  rewrite scan_app, Hf. cbn [fst snd scan].
  rewrite bool_decide_eq_false_2 by done.
  rewrite (bool_decide_eq_false_2 (csv.delimiter = csv.LF)) by done.
  cbn [andb]. by rewrite IH.
Qed.

Lemma scan_join (row : list cell) : scan false (csv.join (csv.field <$> row)) = (false, 0%nat).
Proof.
  apply scan_join_fields, Forall_fmap, Forall_forall. intros c _. apply scan_field.
Qed.

Lemma scan_csv_line (row : list cell) : scan false (csv_line row) = (false, 1%nat).
Proof. unfold csv_line. rewrite scan_app, scan_join. reflexivity. Qed.

Lemma scan_lines (rows : list (list cell)) :
  scan false (concat_lines (csv_line <$> rows)) = (false, List.length rows).
Proof.
  induction rows as [|row rows IH]; [done|].
  rewrite fmap_cons. cbn [concat_lines List.length].
  rewrite scan_app, scan_csv_line. cbn [fst snd]. by rewrite IH.
Qed.

Lemma count_records_export (rows : list (Z * Attendee)) :
  count_records (header_line +:+ concat_lines (csv_line ∘ csv_row <$> rows))
  = S (List.length rows).
Proof.
  unfold count_records. rewrite scan_app.
  change (scan false header_line) with (false, 1%nat). cbn [fst snd].
  rewrite (list_fmap_compose csv_row csv_line), scan_lines. cbn.
  by rewrite length_fmap.
Qed.

(** *** Reading the export back *)

Lemma append_cons_end (fld : string) (c : ascii) (s : string) :
  (fld +:+ String c "") +:+ s = fld +:+ String c s.
Proof. by rewrite append_assoc. Qed.

Lemma read_plain_text (s rest fld : string) (rec : list string) :
  csv.needs_quotes s = false →
  read_csv_from in_plain fld rec (s +:+ rest) = read_csv_from in_plain (fld +:+ s) rec rest.
Proof.
  revert fld. induction s as [|c s IH]; intros fld.
  - intros _. by rewrite append_nil_r.
  - cbn [csv.needs_quotes]. intros [Hc Hs]%orb_false_iff. unfold csv.special in Hc.
    apply orb_false_iff in Hc as [[[Hd Hq]%orb_false_iff HCR]%orb_false_iff HLF].
    change (String c s +:+ rest) with (String c (s +:+ rest)). cbn [read_csv_from].
    rewrite Hq, Hd, HLF, HCR. by rewrite IH, append_cons_end.
Qed.

Lemma read_quoted_text (s rest fld : string) (rec : list string) :
  read_csv_from in_quoted fld rec (csv.escape s +:+ String csv.quotechar rest)
  = read_csv_from after_quote (fld +:+ s) rec rest.
Proof.
  revert fld. induction s as [|c s IH]; intros fld.
  - change (csv.escape "" +:+ String csv.quotechar rest) with (String csv.quotechar rest).
    cbn [read_csv_from]. by rewrite bool_decide_eq_true_2, append_nil_r.
  - cbn [csv.escape]. destruct (decide (c = csv.quotechar)) as [->|Hne].
    + rewrite bool_decide_eq_true_2 by done.
      change (String csv.quotechar (String csv.quotechar (csv.escape s))
              +:+ String csv.quotechar rest)
        with (String csv.quotechar (String csv.quotechar
                (csv.escape s +:+ String csv.quotechar rest))).
      cbn [read_csv_from]. rewrite !bool_decide_eq_true_2 by done.
      by rewrite IH, append_cons_end.
    + rewrite bool_decide_eq_false_2 by done.
      change (String c (csv.escape s) +:+ String csv.quotechar rest)
        with (String c (csv.escape s +:+ String csv.quotechar rest)).
      cbn [read_csv_from]. rewrite bool_decide_eq_false_2 by done.
      by rewrite IH, append_cons_end.
Qed.

Lemma read_after_quote (c : ascii) (s fld : string) (rec : list string) :
  c ≠ csv.quotechar →
  read_csv_from after_quote fld rec (String c s) = read_csv_from in_plain fld rec (String c s).
Proof. intros Hc. cbn [read_csv_from]. by rewrite bool_decide_eq_false_2. Qed.

Lemma read_field (x : cell) (c : ascii) (rest : string) (rec : list string) :
  c ≠ csv.quotechar →
  read_csv_from in_plain "" rec (csv.field x +:+ String c rest)
  = read_csv_from in_plain (csv.text x) rec (String c rest).
Proof.
  intros Hc. unfold csv.field. destruct (csv.needs_quotes (csv.text x)) eqn:E.
  - rewrite append_assoc.
    change (String csv.quotechar (csv.escape (csv.text x))
            +:+ String csv.quotechar "" +:+ String c rest)
      with (String csv.quotechar
              (csv.escape (csv.text x) +:+ String csv.quotechar (String c rest))).
    cbn [read_csv_from]. rewrite bool_decide_eq_true_2 by done.
    by rewrite read_quoted_text, read_after_quote.
  - by rewrite read_plain_text.
Qed.

Lemma read_csv_line (row : list cell) (rest : string) (rec : list string) :
  row ≠ [] →
  read_csv_from in_plain "" rec (csv_line row +:+ rest)
  = (rec ++ (csv.text <$> row))%list :: read_csv_from in_plain "" [] rest.
Proof.
  intros Hrow. revert rec. induction row as [|x row IH]; [done|]. intros rec.
  destruct row as [|y row].
  - unfold csv_line.
    change (csv.join (csv.field <$> [x])) with (csv.field x).
    rewrite append_assoc.
    change (csv.lineterminator +:+ rest) with (String csv.CR (String csv.LF rest)).
    rewrite read_field by done. cbn [read_csv_from].
    rewrite !(bool_decide_eq_false_2 (csv.CR = _)) by done.
    rewrite bool_decide_eq_true_2 by done. cbn [read_csv_from].
    rewrite !(bool_decide_eq_false_2 (csv.LF = _)) by done.
    by rewrite bool_decide_eq_true_2.
  - unfold csv_line in *.
    change (csv.join (csv.field <$> x :: y :: row))
      with (csv.field x +:+ String csv.delimiter (csv.join (csv.field <$> y :: row))).
    rewrite !append_assoc.
    change (String csv.delimiter (csv.join (csv.field <$> y :: row))
            +:+ csv.lineterminator +:+ rest)
      with (String csv.delimiter
              (csv.join (csv.field <$> y :: row) +:+ csv.lineterminator +:+ rest)).
    rewrite <- (append_assoc (csv.join (csv.field <$> y :: row))).
    rewrite read_field by done. cbn [read_csv_from].
    rewrite bool_decide_eq_false_2 by done.
    rewrite bool_decide_eq_true_2 by done.
    rewrite IH by done. by rewrite <- app_assoc.
Qed.

Lemma read_csv_lines (rows : list (list cell)) :
  Forall (λ row, row ≠ []) rows →
  read_csv_from in_plain "" [] (concat_lines (csv_line <$> rows))
  = ((λ row : list cell, csv.text <$> row) <$> rows).
Proof.
  induction 1 as [|row rows Hrow _ IH]; [done|].
  rewrite !fmap_cons. cbn [concat_lines]. by rewrite read_csv_line, IH.
Qed.

(** What a reader finds in the export: the header, then for each row the
    texts of its six cells. *)
Lemma read_csv_export (rows : list (Z * Attendee)) :
  read_csv (header_line +:+ concat_lines (csv_line ∘ csv_row <$> rows))
  = ["ID"; "Name"; "Role"; "Group"; "Timestamp (UTC)"; "Access Token Used"]
    :: ((λ a : Z * Attendee,
           [pretty a.1; name a.2; role a.2; default "" (group a.2);
            strftime (timestamp a.2); access_token_used a.2]) <$> rows).
Proof.
  unfold read_csv. change header_line with (csv_line csv_header).
  rewrite read_csv_line by done. f_equal.
  rewrite (list_fmap_compose csv_row csv_line), read_csv_lines.
  - rewrite <- list_fmap_compose. apply list_fmap_ext. intros _ [id a] _.
    cbn. by destruct (group a).
  - apply Forall_fmap, Forall_forall. by intros [id a] _.
Qed.

(** *** The view *)

#[local] Instance desc_timestamp_total : Total (desc (column_compare col_timestamp)).
Proof. exact newest_first_total. Qed.

#[local] Instance desc_timestamp_trans : Transitive (desc (column_compare col_timestamp)).
Proof. exact newest_first_trans. Qed.

(** C8.  For a logged-in admin, [export_csv] answers with the header line
    [ID,Name,Role,Group,Timestamp (UTC),Access Token Used] followed by one
    line per row of [Attendee], the rows taken in descending order of
    [timestamp]: the text holds one record more than the table has rows.
    Read back, the text gives the six header names and then, for each row in
    that order, its id in decimal, its name, its role, its group (empty when
    there is none), its timestamp and its token.  The timestamp of a row with
    a four-digit year is written [YYYY-MM-DD HH:MM:SS] and shows the year,
    month, day, hour, minute and second of the row. *)
Theorem export_csv_contents (req : request) (st : state) :
  logged_in st = true →
  (∀ id a, attendee st !! id = Some a → valid_datetime (timestamp a)) →
  ∃ rows body stamps,
    serve (export_csv req) st = (make_response body export_headers, st)
    ∧ rows ≡ₚ map_to_list (attendee st)
    ∧ StronglySorted newest_first rows
    ∧ List.length rows = size (attendee st)
    ∧ body = "ID,Name,Role,Group,Timestamp (UTC),Access Token Used" +:+ csv.lineterminator
             +:+ concat_lines (csv_line ∘ csv_row <$> rows)
    ∧ count_records body = S (size (attendee st))
    ∧ Forall (λ a, ∃ ts, (csv.field <$> csv_row a) !! 4%nat = Some ts
                         ∧ matches timestamp_layout ts = true) rows
    ∧ read_csv body
      = ["ID"; "Name"; "Role"; "Group"; "Timestamp (UTC)"; "Access Token Used"]
        :: zip_with (λ (a : Z * Attendee) (ts : string),
                       [pretty a.1; name a.2; role a.2; default "" (group a.2);
                        ts; access_token_used a.2]) rows stamps
    ∧ Forall2 (λ (a : Z * Attendee) (ts : string),
                 matches timestamp_layout ts = true
                 ∧ read_timestamp ts
                   = Some (year (timestamp a.2), month (timestamp a.2),
                           day (timestamp a.2), hour (timestamp a.2),
                           minute (timestamp a.2), second (timestamp a.2)))
        rows stamps.
Proof.
  intros Hin Hvalid.
  set (rows := order_by (desc (column_compare col_timestamp)) (map_to_list (attendee st))).
  assert (Hperm : rows ≡ₚ map_to_list (attendee st)) by apply merge_sort_Permutation.
  assert (Hlen : List.length rows = size (attendee st)).
  { by rewrite Hperm, length_map_to_list. }
  assert (Hrows : ∀ a, a ∈ rows → valid_datetime (timestamp a.2)).
  { intros [id a] Ha. rewrite Hperm in Ha. apply elem_of_map_to_list in Ha. eauto. }
  exists rows, (header_line +:+ concat_lines (csv_line ∘ csv_row <$> rows)),
         ((λ a : Z * Attendee, strftime (timestamp a.2)) <$> rows).
  split; [|split; [done|split; [|split; [done|split; [|split; [|split; [|split]]]]]]].
  - unfold export_csv, serve. rewrite login_required_admits by done.
    unfold export_csv_body. run_view. fold rows.
    by rewrite writerow_loop, header_line_written.
  - apply (StronglySorted_merge_sort (desc (column_compare col_timestamp))).
  - unfold header_line. by rewrite append_assoc.
  - by rewrite count_records_export, Hlen.
  - apply Forall_forall. intros a Ha.
    exists (strftime (timestamp a.2)).
    pose proof (strftime_layout _ (Hrows _ Ha)) as Hts.
    split; [|done]. cbn. by rewrite timestamp_written_plain.
  - rewrite read_csv_export. f_equal. clear. induction rows as [|a rows IH]; [done|].
    cbn. by rewrite IH.
  - clearbody rows. clear Hperm Hlen. induction rows as [|a rows IH]; [constructor|].
    rewrite fmap_cons. constructor.
    + split; [apply strftime_layout|apply strftime_read_back]; apply Hrows; left.
    + apply IH. intros b Hb. apply Hrows. by right.
Qed.

Lemma with_Al_timestamps_valid id a :
  attendee with_Al !! id = Some a → valid_datetime (timestamp a).
Proof.
  intros H%elem_of_map_to_list. vm_compute in H.
  repeat (apply elem_of_cons in H as [[= -> ->]|H];
          [unfold valid_datetime; cbn; lia|]).
  by apply elem_of_nil in H.
Qed.

Lemma export_csv_contents_witness :
  ∃ rows body stamps,
    serve (export_csv (sample_request GET [] [] "" later)) with_Al
      = (make_response body export_headers, with_Al)
    ∧ rows ≡ₚ map_to_list (attendee with_Al)
    ∧ StronglySorted newest_first rows
    ∧ List.length rows = size (attendee with_Al)
    ∧ body = "ID,Name,Role,Group,Timestamp (UTC),Access Token Used" +:+ csv.lineterminator
             +:+ concat_lines (csv_line ∘ csv_row <$> rows)
    ∧ count_records body = S (size (attendee with_Al))
    ∧ Forall (λ a, ∃ ts, (csv.field <$> csv_row a) !! 4%nat = Some ts
                         ∧ matches timestamp_layout ts = true) rows
    ∧ read_csv body
      = ["ID"; "Name"; "Role"; "Group"; "Timestamp (UTC)"; "Access Token Used"]
        :: zip_with (λ (a : Z * Attendee) (ts : string),
                       [pretty a.1; name a.2; role a.2; default "" (group a.2);
                        ts; access_token_used a.2]) rows stamps
    ∧ Forall2 (λ (a : Z * Attendee) (ts : string),
                 matches timestamp_layout ts = true
                 ∧ read_timestamp ts
                   = Some (year (timestamp a.2), month (timestamp a.2),
                           day (timestamp a.2), hour (timestamp a.2),
                           minute (timestamp a.2), second (timestamp a.2)))
        rows stamps.
Proof.
  apply export_csv_contents; [reflexivity|]. exact with_Al_timestamps_valid.
Defined.

(** * The whole application *)

(** ** Equations of the remaining views *)

Lemma register_eq (tok : string) (req : request) (st : state) :
  serve (register tok req) st =
    match head (filter (λ kv : Z * AccessLink, token kv.2 = tok ∧ is_active kv.2 = true)
                  (map_to_list (access_link st))) with
    | None => (render_template invalid_link_html 404, st)
    | Some _ =>
        match method req with
        | GET => (render_template (register_html tok roles) 200, st)
        | POST =>
            match form req !! "name", form req !! "role" with
            | Some nm, Some rl =>
                if negb (truthy nm) || negb (truthy rl)
                then (redirect (url_for (ep_register tok)), refused_registration st)
                else (redirect "/success", registered tok req nm rl st)
            | _, _ => (redirect (url_for (ep_register tok)), refused_registration st)
            end
        end
    end.
Proof.
  unfold register. run_view.
  destruct (head _); [|done]. destruct (method req); [done|].
  destruct (form req !! "name") as [nm|]; [|done].
  destruct (form req !! "role") as [rl|]; [|done].
  by destruct (negb (truthy nm) || negb (truthy rl)).
Qed.

Lemma truthy_nonempty (s : string) : truthy s = true ↔ s ≠ "".
Proof. by destruct s. Qed.

Lemma head_filter_accepts tok (t : gmap Z AccessLink) kv :
  head (filter (λ kv : Z * AccessLink, token kv.2 = tok ∧ is_active kv.2 = true)
          (map_to_list t)) = Some kv →
  accepts tok t.
Proof.
  intros H. apply head_Some_elem_of, list_elem_of_filter in H as [[Htok Hact] Hin].
  destruct kv as [id l]. apply elem_of_map_to_list in Hin. by exists id, l.
Qed.

Lemma guarded_eq (f : view response) (st : state) :
  serve (login_required f) st = if logged_in st then serve f st else unauthorized st.
Proof.
  destruct (logged_in st) eqn:E.
  - unfold serve. by rewrite login_required_admits.
  - by apply login_required_refuses.
Qed.

Lemma export_csv_body_reads_only (req : request) (st : state) :
  (serve (export_csv_body req) st).2 = st.
Proof. reflexivity. Qed.

Lemma admin_dashboard_body_reads_only (req : request) (st : state) :
  (serve (admin_dashboard_body req) st).2 = st.
Proof.
  unfold admin_dashboard_body. run_view. by destruct (getattr_Attendee _).
Qed.

(** ** What a request does to the tables *)

Lemma register_table_change (tok : string) (req : request) (st : state) :
  table_change req st (serve (register tok req) st).2.
Proof.
  rewrite register_eq.
  destruct (head _) as [kv|] eqn:Hhead; [|by apply tc_none].
  destruct (method req) eqn:Hm; [by apply tc_none|].
  destruct (form req !! "name") as [nm|] eqn:Hn; [|by apply tc_none].
  destruct (form req !! "role") as [rl|] eqn:Hr; [|by apply tc_none].
  destruct (truthy nm) eqn:Tn; [|by apply tc_none].
  destruct (truthy rl) eqn:Tr; [|by apply tc_none].
  apply (tc_register _ _ _ tok nm rl); try done.
  - by eapply head_filter_accepts.
  - by apply truthy_nonempty.
  - by apply truthy_nonempty.
Qed.

Lemma generate_link_table_change (req : request) (st : state) :
  method req = POST → table_change req st (serve (generate_link req) st).2.
Proof.
  intros Hm. unfold generate_link. rewrite guarded_eq.
  destruct (logged_in st) eqn:Hin; [|by apply tc_none].
  unfold serve. rewrite generate_link_body_eq.
  destruct (token_in_use _ _) eqn:Hfresh; [by apply tc_none|].
  by apply tc_generate.
Qed.

Lemma toggle_link_status_table_change (link_id : Z) (req : request) (st : state) :
  method req = POST → table_change req st (serve (toggle_link_status link_id req) st).2.
Proof.
  intros Hm. unfold toggle_link_status. rewrite guarded_eq.
  destruct (logged_in st) eqn:Hin; [|by apply tc_none].
  unfold serve. rewrite toggle_link_status_body_eq.
  destruct (access_link st !! link_id) as [l|] eqn:E; [|by apply tc_none].
  apply (tc_toggle _ _ _ link_id l); cbn [snd]; try done.
  unfold toggled. by destruct (is_active l).
Qed.

Lemma handle_table_change environ (st : state) (e : endpoint) (req : request) :
  table_change req st (handle environ st (e, req)).
Proof.
  unfold handle, dispatch. cbn [fst snd].
  case_bool_decide as Hm; [|by apply tc_none].
  destruct e; cbn [view_function methods] in *.
  - apply register_table_change.
  - by apply tc_none.
  - by apply tc_none.
  - rewrite admin_login_eq. destruct (logged_in st); [by apply tc_none|].
    destruct (method req); [by apply tc_none|].
    by destruct (_ && _); apply tc_none.
  - by apply tc_none.
  - unfold admin_dashboard. rewrite guarded_eq.
    destruct (logged_in st); [|by apply tc_none].
    rewrite admin_dashboard_body_reads_only. by apply tc_none.
  - apply generate_link_table_change.
    apply elem_of_cons in Hm as [Hm|Hm]; [exact Hm|by apply elem_of_nil in Hm].
  - apply toggle_link_status_table_change.
    apply elem_of_cons in Hm as [Hm|Hm]; [exact Hm|by apply elem_of_nil in Hm].
  - unfold export_csv. rewrite guarded_eq.
    destruct (logged_in st); by apply tc_none.
Qed.

Lemma run_cons environ (r : endpoint * request) (rs : list (endpoint * request)) st :
  run environ (r :: rs) st = run environ rs (handle environ st r).
Proof. reflexivity. Qed.

(** An invariant of the tables that every [table_change] keeps holds after
    every sequence of requests. *)
Lemma run_invariant environ (P : state → Prop) :
  (∀ req st st', table_change req st st' → P st → P st') →
  ∀ rs st, P st → P (run environ rs st).
Proof.
  intros Hstep. induction rs as [|[e req] rs IH]; intros st HP; [done|].
  rewrite run_cons. apply IH. eapply Hstep; [apply handle_table_change|done].
Qed.

(** ** Invariants of the link table over all routes *)

Lemma table_change_single_active req st st' :
  table_change req st st' →
  at_most_one_active (access_link st) → at_most_one_active (access_link st').
Proof.
  intros [Hl _|_ _ _ Hl _|link_id l _ _ Hrow Hl _|tok nm rl _ _ _ _ _ _ Hl _] Hinv;
    rewrite Hl; try done.
  - apply at_most_one_insert_after_deactivate.
  - unfold toggled. destruct (is_active l) eqn:Ea; cbn.
    + by apply at_most_one_switch_off.
    + apply at_most_one_insert_after_deactivate.
Qed.

(** X1.  Whatever requests arrive, on whatever route, with whatever method
    and for whatever session, a link table with at most one active row keeps
    at most one active row. *)
Theorem every_route_keeps_single_active_link
    (environ : gmap string string) (rs : list (endpoint * request)) (st : state) :
  (count_active (access_link st) ≤ 1)%nat →
  (count_active (access_link (run environ rs st)) ≤ 1)%nat.
Proof.
  rewrite !count_active_le_1.
  apply (run_invariant environ (λ st, at_most_one_active (access_link st))).
  apply table_change_single_active.
Qed.

Lemma tokens_unique_deactivate (t : gmap Z AccessLink) :
  tokens_unique t → tokens_unique (deactivate <$> t).
Proof.
  intros Hu i j a b Hi Hj Htok. rewrite lookup_fmap in Hi, Hj.
  destruct (t !! i) as [a'|] eqn:Ei; [|done].
  destruct (t !! j) as [b'|] eqn:Ej; [|done].
  injection Hi as <-. injection Hj as <-. by apply (Hu i j a' b').
Qed.

Lemma tokens_unique_reflag (t : gmap Z AccessLink) k l b :
  tokens_unique t → t !! k = Some l → tokens_unique (<[k := set_is_active b l]> t).
Proof.
  intros Hu Hk i j x y Hi Hj Htok.
  apply lookup_insert_Some in Hi as [[<- <-]|[Hik Hi]];
    apply lookup_insert_Some in Hj as [[<- <-]|[Hjk Hj]]; try done.
  - by apply (Hu k j l y).
  - by apply (Hu i k x l).
  - by apply (Hu i j x y).
Qed.

Lemma tokens_unique_insert_fresh (t : gmap Z AccessLink) k l :
  tokens_unique t → token_in_use (token l) t = false → tokens_unique (<[k := l]> t).
Proof.
  intros Hu Hfresh%not_true_iff_false i j x y Hi Hj Htok.
  apply lookup_insert_Some in Hi as [[<- <-]|[Hik Hi]];
    apply lookup_insert_Some in Hj as [[<- <-]|[Hjk Hj]]; try done.
  - exfalso. apply Hfresh, token_in_use_spec. eauto.
  - exfalso. apply Hfresh, token_in_use_spec. eauto.
  - by apply (Hu i j x y).
Qed.

Lemma table_change_tokens_unique req st st' :
  table_change req st st' →
  tokens_unique (access_link st) → tokens_unique (access_link st').
Proof.
  intros [Hl _|_ _ Hfresh Hl _|link_id l _ _ Hrow Hl _|tok nm rl _ _ _ _ _ _ Hl _] Hu;
    rewrite Hl; try done.
  - cbn. apply tokens_unique_insert_fresh; [by apply tokens_unique_deactivate|].
    by rewrite token_in_use_deactivate.
  - unfold toggled. destruct (is_active l); cbn.
    + by apply tokens_unique_reflag.
    + replace (set_is_active true l) with (set_is_active true (deactivate l)) by done.
      apply tokens_unique_reflag; [by apply tokens_unique_deactivate|].
      by rewrite lookup_fmap, Hrow.
Qed.

(** X2.  The [unique] constraint on [AccessLink.token] is never broken: if no
    two links share a token, no sequence of requests makes two links share
    one. *)
Theorem every_route_keeps_tokens_unique
    (environ : gmap string string) (rs : list (endpoint * request)) (st : state) :
  tokens_unique (access_link st) → tokens_unique (access_link (run environ rs st)).
Proof.
  apply (run_invariant environ (λ st, tokens_unique (access_link st))).
  apply table_change_tokens_unique.
Qed.

Lemma table_change_link_kept req st st' id l :
  table_change req st st' → access_link st !! id = Some l →
  ∃ l', access_link st' !! id = Some l'
        ∧ token l' = token l ∧ created_at l' = created_at l.
Proof.
  intros [Hl _|_ _ _ Hl _|link_id l0 _ _ Hrow Hl _|tok nm rl _ _ _ _ _ _ Hl _] Hid;
    rewrite Hl; eauto.
  - exists (set_is_active false l). by rewrite (generated_lookup_old _ _ _ _ Hid).
  - unfold toggled. destruct (is_active l0); cbn.
    + destruct (decide (link_id = id)) as [->|Hne].
      * rewrite lookup_insert_eq. assert (l0 = l) as -> by congruence. eauto.
      * rewrite lookup_insert_ne by done. eauto.
    + destruct (decide (link_id = id)) as [->|Hne].
      * rewrite lookup_insert_eq. assert (l0 = l) as -> by congruence. eauto.
      * rewrite lookup_insert_ne, lookup_fmap, Hid by done. cbn. eauto.
Qed.

(** X3.  No request deletes a link or alters its token or creation time: a
    row of [AccessLink] is found under the same id, with the same [token] and
    [created_at], after any sequence of requests. *)
Theorem links_are_never_deleted
    (environ : gmap string string) (rs : list (endpoint * request)) (st : state)
    (id : Z) (l : AccessLink) :
  access_link st !! id = Some l →
  ∃ l', access_link (run environ rs st) !! id = Some l'
        ∧ token l' = token l ∧ created_at l' = created_at l.
Proof.
  revert st l. induction rs as [|[e req] rs IH]; intros st l Hid; [eauto|].
  rewrite run_cons.
  destruct (table_change_link_kept req st _ id l (handle_table_change environ st e req) Hid)
    as (l1 & H1 & Htok & Hcre).
  destruct (IH _ _ H1) as (l' & H' & Htok' & Hcre').
  exists l'. split; [done|]. split; congruence.
Qed.

Lemma table_change_attendee_kept req st st' id a :
  table_change req st st' → attendee st !! id = Some a → attendee st' !! id = Some a.
Proof.
  intros [_ Ha|_ _ _ _ Ha|link_id l0 _ _ _ _ Ha|tok nm rl _ _ _ _ _ _ _ Ha] Hid;
    rewrite Ha; try done.
  cbn. rewrite lookup_insert_ne; [done|].
  intros <-. by rewrite next_id_fresh in Hid.
Qed.

(** X4.  No request deletes or alters an attendee: a row of [Attendee] is
    found unchanged under the same id after any sequence of requests. *)
Theorem attendees_are_never_altered
    (environ : gmap string string) (rs : list (endpoint * request)) (st : state)
    (id : Z) (a : Attendee) :
  attendee st !! id = Some a → attendee (run environ rs st) !! id = Some a.
Proof.
  apply (run_invariant environ (λ st, attendee st !! id = Some a)).
  intros req s s' Hc. by apply (table_change_attendee_kept req).
Qed.

Lemma table_change_tokens_known req st st' :
  table_change req st st' → tokens_known st → tokens_known st'.
Proof.
  intros Hc Hk id a Ha.
  assert (Hold : ∀ id a, attendee st !! id = Some a →
            ∃ link_id l, access_link st' !! link_id = Some l
                         ∧ token l = access_token_used a).
  { intros id0 a0 Ha0. destruct (Hk _ _ Ha0) as (link_id & l & Hl & Htok).
    destruct (table_change_link_kept _ _ _ _ _ Hc Hl) as (l' & Hl' & Htok' & _).
    exists link_id, l'. split; [done|congruence]. }
  destruct Hc as [_ Hatt|_ _ _ _ Hatt|link_id l0 _ _ _ _ Hatt
                 |tok nm rl _ Hacc _ _ _ _ Hl Hatt];
    rewrite Hatt in Ha; eauto.
  cbn in Ha. apply lookup_insert_Some in Ha as [[_ <-]|[_ Ha]]; [|eauto].
  destruct Hacc as (link_id & l & Hrow & Htok & _).
  exists link_id, l. by rewrite Hl.
Qed.

(** X5.  The token stored with an attendee is always the token of a link in
    the table: if that holds of every attendee row, it holds after any
    sequence of requests. *)
Theorem attendee_tokens_stay_known
    (environ : gmap string string) (rs : list (endpoint * request)) (st : state) :
  tokens_known st → tokens_known (run environ rs st).
Proof. apply (run_invariant environ tokens_known), table_change_tokens_known. Qed.

(** X6.  A GET request changes neither table, on any route and for any
    session. *)
Theorem get_requests_change_no_table
    (environ : gmap string string) (e : endpoint) (req : request) (st : state) :
  method req = GET →
  access_link (handle environ st (e, req)) = access_link st
  ∧ attendee (handle environ st (e, req)) = attendee st.
Proof.
  intros Hget.
  destruct (handle_table_change environ st e req)
    as [Hl Ha|Hm _ _ _ _|link_id l Hm _ _ _ _|tok nm rl Hm _ _ _ _ _ _ _];
    [done|congruence..].
Qed.

(** X7.  A session without the admin flag cannot change the link table: no
    request on any route, the login itself included, alters [AccessLink]
    when it starts without the flag. *)
Theorem anonymous_requests_keep_links
    (environ : gmap string string) (e : endpoint) (req : request) (st : state) :
  logged_in st = false →
  access_link (handle environ st (e, req)) = access_link st.
Proof.
  intros Hout.
  destruct (handle_table_change environ st e req)
    as [Hl _|_ Hin _ _ _|link_id l _ Hin _ _ _|tok nm rl _ _ _ _ _ _ Hl _];
    congruence.
Qed.

Example sample_session_outcome :
  map_to_list (access_link (run ∅ sample_session anonymous))
    ≡ₚ [(1, mk_AccessLink "tok-A" true noon); (2, mk_AccessLink "tok-B" false later)]
  ∧ map_to_list (attendee (run ∅ sample_session anonymous))
    = [(1, mk_Attendee "Jo" "Guest" None later "tok-A")]
  ∧ admin_logged_in (run ∅ sample_session anonymous) = None.
Proof.
  split; [|split; reflexivity].
  vm_compute. apply Permutation_swap.
Qed.

Lemma every_route_keeps_single_active_link_witness :
  (count_active (access_link anonymous) ≤ 1)%nat
  ∧ (count_active (access_link (run ∅ sample_session anonymous)) ≤ 1)%nat.
Proof.
  assert (H : (count_active (access_link anonymous) ≤ 1)%nat) by (vm_compute; lia).
  split; [exact H|]. apply every_route_keeps_single_active_link. exact H.
Defined.

Lemma every_route_keeps_tokens_unique_witness :
  tokens_unique (access_link anonymous)
  ∧ tokens_unique (access_link (run ∅ sample_session anonymous)).
Proof.
  assert (H : tokens_unique (access_link anonymous)).
  { intros i j a b Hi. cbn in Hi. by rewrite lookup_empty in Hi. }
  split; [exact H|]. apply every_route_keeps_tokens_unique. exact H.
Defined.

Lemma links_are_never_deleted_witness :
  access_link after_B !! 1 = Some (mk_AccessLink "tok-A" false noon)
  ∧ ∃ l', access_link (run ∅ sample_session after_B) !! 1 = Some l'
          ∧ token l' = "tok-A" ∧ created_at l' = noon.
Proof.
  split; [reflexivity|].
  apply (links_are_never_deleted ∅ sample_session after_B 1
           (mk_AccessLink "tok-A" false noon)).
  reflexivity.
Defined.

Lemma attendees_are_never_altered_witness :
  attendee with_Jo !! 1 = Some (mk_Attendee "Jo" "Guest" (Some "") later "tok-B")
  ∧ attendee (run ∅ sample_session with_Jo) !! 1
    = Some (mk_Attendee "Jo" "Guest" (Some "") later "tok-B").
Proof.
  split; [reflexivity|]. apply attendees_are_never_altered. reflexivity.
Defined.

Lemma attendee_tokens_stay_known_witness :
  tokens_known anonymous ∧ tokens_known (run ∅ sample_session anonymous).
Proof.
  assert (H : tokens_known anonymous).
  { intros id a Ha. cbn in Ha. by rewrite lookup_empty in Ha. }
  split; [exact H|]. apply attendee_tokens_stay_known. exact H.
Defined.

Lemma get_requests_change_no_table_witness :
  access_link (handle ∅ after_B (ep_generate_link, sample_request GET [] [] "tok-C" later))
  = access_link after_B
  ∧ attendee (handle ∅ after_B (ep_generate_link, sample_request GET [] [] "tok-C" later))
    = attendee after_B.
Proof. apply get_requests_change_no_table. reflexivity. Defined.

Lemma anonymous_requests_keep_links_witness :
  logged_in (logged_out after_B) = false
  ∧ access_link (handle ∅ (logged_out after_B)
                   (ep_generate_link, sample_request POST [] [] "tok-C" later))
    = access_link (logged_out after_B).
Proof. split; [reflexivity|]. apply anonymous_requests_keep_links. reflexivity. Defined.

(** ** The session flag *)

Lemma register_keeps_session (tok : string) (req : request) (st : state) :
  access_link (serve (register tok req) st).2 = access_link st
  ∧ admin_logged_in (serve (register tok req) st).2 = admin_logged_in st.
Proof.
  rewrite register_eq. destruct (head _); [|done]. destruct (method req); [done|].
  destruct (form req !! "name"); [|done]. destruct (form req !! "role"); [|done].
  by destruct (negb _ || negb _).
Qed.

Lemma guarded_keeps_flag (f : view response) (st : state) :
  (∀ st, admin_logged_in (serve f st).2 = admin_logged_in st) →
  admin_logged_in (serve (login_required f) st).2 = admin_logged_in st.
Proof. intros Hf. rewrite guarded_eq. by destruct (logged_in st). Qed.

Lemma view_keeps_flag environ (e : endpoint) (req : request) (st : state) :
  e ≠ ep_admin_login → e ≠ ep_admin_logout →
  admin_logged_in (serve (view_function environ e req) st).2 = admin_logged_in st.
Proof.
  intros Hlogin Hlogout. destruct e; cbn [view_function]; try done.
  - apply register_keeps_session.
  - apply guarded_keeps_flag. intros s. by rewrite admin_dashboard_body_reads_only.
  - apply guarded_keeps_flag. intros s. unfold serve.
    rewrite generate_link_body_eq. by destruct (token_in_use _ _).
  - apply guarded_keeps_flag. intros s. unfold serve.
    rewrite toggle_link_status_body_eq.
    destruct (access_link s !! link_id) as [l|]; [|done].
    unfold toggled. by destruct (is_active l).
  - by apply guarded_keeps_flag.
Qed.

(** X8.  The admin flag of the session changes in two ways only: a POST to
    the login view with the configured username and password sets it to
    true, and the logout view removes it.  No other request, and no other
    credentials, touch it. *)
Theorem session_flag_changes_only_by_login_and_logout
    (environ : gmap string string) (e : endpoint) (req : request) (st : state) :
  admin_logged_in (handle environ st (e, req)) ≠ admin_logged_in st →
  (e = ep_admin_login ∧ method req = POST
   ∧ form req !! "username" = Some (ADMIN_USERNAME environ)
   ∧ form req !! "password" = Some (ADMIN_PASSWORD environ)
   ∧ admin_logged_in (handle environ st (e, req)) = Some true)
  ∨ (e = ep_admin_logout ∧ method req = GET
     ∧ admin_logged_in (handle environ st (e, req)) = None).
Proof.
  unfold handle, dispatch. cbn [fst snd]. case_bool_decide as Hm; [|done].
  destruct (decide (e = ep_admin_login)) as [->|Hlogin].
  { cbn [view_function]. rewrite admin_login_eq.
    destruct (logged_in st); [done|]. destruct (method req) eqn:Hpost; [done|].
    destruct (bool_decide _ && bool_decide _) eqn:E; [|done].
    apply andb_true_iff in E as [Hu%bool_decide_eq_true Hp%bool_decide_eq_true].
    intros _. left. done. }
  destruct (decide (e = ep_admin_logout)) as [->|Hlogout].
  { cbn [view_function methods] in *. intros _. right. split; [done|]. split; [|done].
    apply elem_of_cons in Hm as [Hm|Hm]; [exact Hm|by apply elem_of_nil in Hm]. }
  by rewrite view_keeps_flag.
Qed.

Lemma session_flag_changes_only_by_login_and_logout_witness :
  admin_logged_in (handle ∅ after_B (ep_admin_logout, sample_request GET [] [] "" later))
  = None.
Proof.
  destruct (session_flag_changes_only_by_login_and_logout ∅ ep_admin_logout
              (sample_request GET [] [] "" later) after_B) as [(H & _)|(_ & _ & H)].
  - discriminate.
  - discriminate H.
  - exact H.
Defined.

(** X9.  After a successful login the dashboard is served: a POST with the
    configured credentials from a session without the flag leaves both tables
    as they were, and the next request to the dashboard is answered with the
    rendered page, status 200, instead of the redirect to the login view. *)
Theorem login_opens_the_dashboard
    (environ : gmap string string) (req req' : request) (st : state) :
  logged_in st = false →
  method req = POST →
  form req !! "username" = Some (ADMIN_USERNAME environ) →
  form req !! "password" = Some (ADMIN_PASSWORD environ) →
  ∃ st1,
    serve (admin_login environ req) st = (redirect "/admin/dashboard", st1)
    ∧ access_link st1 = access_link st
    ∧ attendee st1 = attendee st
    ∧ ∃ attendees links active_link sort_by order,
        serve (admin_dashboard req') st1
        = (render_template
             (admin_dashboard_html attendees links active_link sort_by order) 200, st1).
Proof.
  intros Hout Hpost Hu Hp. rewrite admin_login_eq, Hout, Hpost.
  rewrite !bool_decide_eq_true_2 by done. cbn [andb].
  eexists. split; [done|]. split; [done|]. split; [done|].
  rewrite admin_dashboard_guarded. cbn [logged_in admin_logged_in default].
  unfold admin_dashboard_body.
  destruct (getattr_after_fallback (default "timestamp" (args req' !! "sort_by")))
    as [col Hcol].
  run_view. rewrite Hcol. cbn. eauto 10.
Qed.

Lemma login_opens_the_dashboard_witness :
  ∃ st1,
    serve (admin_login ∅
             (sample_request POST [("username", "admin"); ("password", "password")]
                [] "" noon)) (logged_out after_B)
    = (redirect "/admin/dashboard", st1)
    ∧ access_link st1 = access_link (logged_out after_B)
    ∧ attendee st1 = attendee (logged_out after_B)
    ∧ ∃ attendees links active_link sort_by order,
        serve (admin_dashboard (sample_request GET [] [] "" later)) st1
        = (render_template
             (admin_dashboard_html attendees links active_link sort_by order) 200, st1).
Proof. apply login_opens_the_dashboard; reflexivity. Defined.

(** X10.  After a logout every guarded view is refused: whatever the session
    was, the request that follows [admin_logout] on the dashboard, on
    generate-link, on toggle-link or on export-csv gets the guard's redirect
    and changes nothing but the flash queue. *)
Theorem logout_closes_the_admin_views (op : admin_op) (req req' : request) (st : state) :
  op ≠ op_logout →
  serve (admin_view op req') (serve (admin_logout req) st).2
  = unauthorized (logged_out st).
Proof. intros Hop. rewrite admin_logout_eq. by apply guarded_view_refuses. Qed.

Lemma logout_closes_the_admin_views_witness :
  serve (admin_view op_generate_link (sample_request POST [] [] "tok-C" later))
        (serve (admin_logout (sample_request GET [] [] "" later)) after_B).2
  = unauthorized (logged_out after_B).
Proof. apply logout_closes_the_admin_views. discriminate. Defined.

(** ** Registration *)

(** X11.  With an active link for the token, a POST whose name and role are
    both non-empty is accepted, whatever the role is (the list of the form is
    not checked): exactly one row is added under a new id, holding the
    submitted name and role, the submitted group or none, the time of the
    request and the token; nothing else changes and the answer is the
    redirect to [/success]. *)
Theorem register_adds_the_attendee
    (tok : string) (req : request) (st : state) (nm rl : string) :
  accepts tok (access_link st) →
  method req = POST →
  form req !! "name" = Some nm → form req !! "role" = Some rl →
  nm ≠ "" → rl ≠ "" →
  ∃ st' new_id,
    serve (register tok req) st = (redirect (url_for ep_success), st')
    ∧ attendee st !! new_id = None
    ∧ attendee st'
      = <[new_id := mk_Attendee nm rl (form req !! "group") (utcnow req) tok]> (attendee st)
    ∧ size (attendee st') = S (size (attendee st))
    ∧ access_link st' = access_link st
    ∧ admin_logged_in st' = admin_logged_in st
    ∧ flashes st' = flashes st.
Proof.
  intros Hacc Hpost Hn Hr Hnm Hrl.
  destruct (active_link_found _ _ Hacc) as [kv Hkv].
  rewrite register_eq, Hkv, Hpost, Hn, Hr.
  apply truthy_nonempty in Hnm, Hrl. rewrite Hnm, Hrl. cbn [negb orb].
  exists (registered tok req nm rl st), (next_id (attendee st)).
  pose proof (next_id_fresh (attendee st)) as Hfresh.
  repeat split; try done.
  cbn. by rewrite map_size_insert_None.
Qed.

Lemma register_adds_the_attendee_witness :
  ∃ st' new_id,
    serve (register "tok-B"
             (sample_request POST [("name", " "); ("role", "Usher")] [] "" later)) with_Jo
    = (redirect (url_for ep_success), st')
    ∧ attendee with_Jo !! new_id = None
    ∧ attendee st'
      = <[new_id := mk_Attendee " " "Usher"
                      (form (sample_request POST [("name", " "); ("role", "Usher")] [] "" later)
                         !! "group")
                      (utcnow (sample_request POST [("name", " "); ("role", "Usher")]
                                 [] "" later)) "tok-B"]>
          (attendee with_Jo)
    ∧ size (attendee st') = S (size (attendee with_Jo))
    ∧ access_link st' = access_link with_Jo
    ∧ admin_logged_in st' = admin_logged_in with_Jo
    ∧ flashes st' = flashes with_Jo.
Proof.
  apply register_adds_the_attendee; try done.
  exists 2, (mk_AccessLink "tok-B" true later). by vm_compute.
Defined.

(** X12.  [register] writes an attendee row only for a POST on a token with
    an active link and with a non-empty name and a non-empty role; and
    whatever it is sent, it changes neither the link table nor the admin
    flag. *)
Theorem register_writes_only_valid_submissions
    (tok : string) (req : request) (st : state) :
  (attendee (serve (register tok req) st).2 ≠ attendee st →
     accepts tok (access_link st) ∧ method req = POST
     ∧ ∃ nm rl, form req !! "name" = Some nm ∧ form req !! "role" = Some rl
                ∧ nm ≠ "" ∧ rl ≠ "")
  ∧ access_link (serve (register tok req) st).2 = access_link st
  ∧ admin_logged_in (serve (register tok req) st).2 = admin_logged_in st.
Proof.
  split; [|apply register_keeps_session].
  intros Hchanged.
  destruct (register_table_change tok req st)
    as [_ Ha|_ _ _ _ Ha|link_id l _ _ _ _ Ha|tok' nm rl Hm Hacc Hn Hr Hnm Hrl _ Ha];
    try done.
  rewrite register_eq in Hchanged.
  destruct (head _) as [kv|] eqn:Hhead; [|done].
  split; [by eapply head_filter_accepts|]. split; [done|]. eauto 10.
Qed.

Lemma register_writes_only_valid_submissions_witness :
  accepts "tok-B" (access_link after_B)
  ∧ method (sample_request POST [("name", "Jo"); ("role", "Guest"); ("group", "")] [] "" later)
    = POST.
Proof.
  destruct (register_writes_only_valid_submissions "tok-B"
              (sample_request POST [("name", "Jo"); ("role", "Guest"); ("group", "")]
                 [] "" later) after_B) as [H _].
  destruct H as (Hacc & Hm & _); [|by split].
  intros Heq. apply (f_equal size) in Heq. vm_compute in Heq. discriminate.
Defined.

(** ** The dashboard *)

Lemma is_order_Z : is_order Z.compare.
Proof.
  split.
  - intros a b. apply Z.compare_antisym.
  - intros a b c. rewrite !Z.compare_ngt_iff. lia.
Qed.

Lemma string_compare_le (a b : string) : String.compare a b ≠ Gt ↔ String.le a b.
Proof. unfold String.le, String.leb. by destruct (String.compare a b). Qed.

Lemma is_order_string : is_order String.compare.
Proof.
  split.
  - intros a b. apply String.compare_antisym.
  - intros a b c. rewrite !string_compare_le. apply transitivity.
Qed.

Lemma is_order_nullable : is_order nullable_compare.
Proof.
  destruct is_order_string as [Hanti Htrans]. split.
  - intros [a|] [b|]; cbn; auto.
  - intros [a|] [b|] [c|]; cbn; try done. apply Htrans.
Qed.

Lemma datetime_compare_not_Lt_trans (a b c : datetime) :
  datetime_compare a b ≠ Lt → datetime_compare b c ≠ Lt → datetime_compare a c ≠ Lt.
Proof.
  unfold datetime_compare.
  repeat apply cmp_then_not_Lt_trans. apply Z_compare_not_Lt_trans.
Qed.

Lemma is_order_datetime : is_order datetime_compare.
Proof.
  split; [intros a b; apply datetime_compare_antisym|].
  intros a b c Hab Hbc.
  pose proof (datetime_compare_not_Lt_trans c b a) as H.
  rewrite (datetime_compare_antisym b c), (datetime_compare_antisym a b),
    (datetime_compare_antisym a c) in H.
  destruct (datetime_compare a b), (datetime_compare b c), (datetime_compare a c);
    cbn in H; try done; exfalso; by apply H.
Qed.

Lemma is_order_lift {A B} (f : A → B) (cmp : B → B → comparison) :
  is_order cmp → is_order (λ a b, cmp (f a) (f b)).
Proof. intros [Hanti Htrans]. split; [intros a b; apply Hanti|]. intros a b c. apply Htrans. Qed.

Lemma is_order_column (col : Attendee_column) : is_order (column_compare col).
Proof.
  destruct col.
  - exact (is_order_lift (λ a : Z * Attendee, a.1) _ is_order_Z).
  - exact (is_order_lift (λ a : Z * Attendee, name a.2) _ is_order_string).
  - exact (is_order_lift (λ a : Z * Attendee, role a.2) _ is_order_string).
  - exact (is_order_lift (λ a : Z * Attendee, group a.2) _ is_order_nullable).
  - exact (is_order_lift (λ a : Z * Attendee, timestamp a.2) _ is_order_datetime).
  - exact (is_order_lift (λ a : Z * Attendee, access_token_used a.2) _ is_order_string).
Qed.

Lemma asc_total {A} (cmp : A → A → comparison) : is_order cmp → Total (asc cmp).
Proof.
  intros [Hanti _] a b. unfold asc. rewrite (Hanti a b).
  destruct (cmp a b); cbn; auto.
Qed.

Lemma asc_trans {A} (cmp : A → A → comparison) : is_order cmp → Transitive (asc cmp).
Proof. intros [_ Htrans] a b c. apply Htrans. Qed.

Lemma desc_total {A} (cmp : A → A → comparison) : is_order cmp → Total (desc cmp).
Proof.
  intros [Hanti _] a b. unfold desc. rewrite (Hanti a b).
  destruct (cmp a b); cbn; auto.
Qed.

Lemma desc_trans {A} (cmp : A → A → comparison) : is_order cmp → Transitive (desc cmp).
Proof.
  intros [Hanti Htrans] a b c. unfold desc. intros Hab Hbc.
  specialize (Htrans c b a).
  rewrite (Hanti a b), (Hanti b c), (Hanti a c) in Htrans.
  destruct (cmp a b), (cmp b c), (cmp a c); cbn in Htrans; try done;
    exfalso; by apply Htrans.
Qed.

Lemma order_by_asc {A} (cmp : A → A → comparison) (rows : list A) :
  is_order cmp →
  order_by (asc cmp) rows ≡ₚ rows ∧ StronglySorted (asc cmp) (order_by (asc cmp) rows).
Proof.
  intros Hcmp. split; [apply merge_sort_Permutation|].
  apply (@StronglySorted_merge_sort _ _ _ (asc_trans _ Hcmp) (asc_total _ Hcmp)).
Qed.

Lemma order_by_desc {A} (cmp : A → A → comparison) (rows : list A) :
  is_order cmp →
  order_by (desc cmp) rows ≡ₚ rows ∧ StronglySorted (desc cmp) (order_by (desc cmp) rows).
Proof.
  intros Hcmp. split; [apply merge_sort_Permutation|].
  apply (@StronglySorted_merge_sort _ _ _ (desc_trans _ Hcmp) (desc_total _ Hcmp)).
Qed.

Lemma sort_by_after_fallback (s : string) :
  ∃ col,
    getattr_Attendee (if bool_decide (s ∉ sortable_columns) then "timestamp" else s)
    = Some col
    ∧ (if bool_decide (s ∉ sortable_columns) then "timestamp" else s) ∈ sortable_columns
    ∧ (s ∈ sortable_columns →
       (if bool_decide (s ∉ sortable_columns) then "timestamp" else s) = s).
Proof.
  destruct (getattr_after_fallback s) as [col Hcol]. exists col. split; [done|].
  case_bool_decide as Hs.
  - split; [|done]. unfold sortable_columns. set_solver.
  - done.
Qed.

(** The column the dashboard sorts by, for the value of the [sort_by]
    argument once the default has been filled in. *)
Lemma sort_column_after_fallback (s : string) :
  let sort_by := if bool_decide (s ∉ sortable_columns) then "timestamp" else s in
  (s ∉ sortable_columns → sort_by = "timestamp")
  ∧ ((sort_by = "name" ∧ getattr_Attendee sort_by = Some col_name)
     ∨ (sort_by = "role" ∧ getattr_Attendee sort_by = Some col_role)
     ∨ (sort_by = "group" ∧ getattr_Attendee sort_by = Some col_group)
     ∨ (sort_by = "timestamp" ∧ getattr_Attendee sort_by = Some col_timestamp)).
Proof.
  cbn zeta. case_bool_decide as Hs.
  - split; [done|]. by right; right; right.
  - split; [done|]. unfold sortable_columns in Hs.
    apply elem_of_cons in Hs as [->|Hs]; [by left|].
    apply elem_of_cons in Hs as [->|Hs]; [by right; left|].
    apply elem_of_cons in Hs as [->|Hs]; [by right; right; left|].
    apply elem_of_cons in Hs as [->|Hs]; [by right; right; right|].
    by apply elem_of_nil in Hs.
Qed.

(** X13.  For a logged-in admin the dashboard lists every attendee exactly
    once, ordered by the requested column when [sort_by] is one of [name],
    [role], [group], [timestamp], and by [timestamp] when [sort_by] is
    missing or anything else: ascending when [order] is [asc], descending in
    every other case, the missing [order] included.  The state is not
    changed. *)
Theorem dashboard_lists_attendees_in_order (req : request) (st : state) :
  logged_in st = true →
  ∃ sort_by col attendees links active_link,
    serve (admin_dashboard req) st
    = (render_template
         (admin_dashboard_html attendees links active_link sort_by
            (default "desc" (args req !! "order"))) 200, st)
    ∧ sort_by ∈ sortable_columns
    ∧ getattr_Attendee sort_by = Some col
    ∧ (∀ s, args req !! "sort_by" = Some s → s ∈ sortable_columns → sort_by = s)
    ∧ (args req !! "sort_by" = None → sort_by = "timestamp")
    ∧ (∀ s, args req !! "sort_by" = Some s → s ∉ sortable_columns → sort_by = "timestamp")
    ∧ ((sort_by = "name" ∧ col = col_name) ∨ (sort_by = "role" ∧ col = col_role)
       ∨ (sort_by = "group" ∧ col = col_group)
       ∨ (sort_by = "timestamp" ∧ col = col_timestamp))
    ∧ attendees ≡ₚ map_to_list (attendee st)
    ∧ (args req !! "order" = Some "asc" →
       StronglySorted (asc (column_compare col)) attendees)
    ∧ (args req !! "order" ≠ Some "asc" →
       StronglySorted (desc (column_compare col)) attendees).
Proof.
  intros Hin. rewrite admin_dashboard_guarded, Hin. unfold admin_dashboard_body.
  destruct (sort_by_after_fallback (default "timestamp" (args req !! "sort_by")))
    as (col & Hcol & Hsortable & Hsame).
  destruct (sort_column_after_fallback (default "timestamp" (args req !! "sort_by")))
    as [Hfall Hcols].
  assert (Hnone : args req !! "sort_by" = None →
            (if bool_decide (default "timestamp" (args req !! "sort_by") ∉ sortable_columns)
             then "timestamp" else default "timestamp" (args req !! "sort_by"))
            = "timestamp").
  { intros ->. reflexivity. }
  assert (Hother : ∀ s, args req !! "sort_by" = Some s → s ∉ sortable_columns →
            (if bool_decide (default "timestamp" (args req !! "sort_by") ∉ sortable_columns)
             then "timestamp" else default "timestamp" (args req !! "sort_by"))
            = "timestamp").
  { intros s Hs Hout. rewrite Hs in Hfall |- *. by apply Hfall. }
  set (sort_by := if bool_decide (_ ∉ sortable_columns) then _ else _) in *.
  run_view. rewrite Hcol.
  do 5 eexists. split; [reflexivity|].
  split; [done|]. split; [done|]. split.
  { intros s Hs Hmem. rewrite Hs in Hsame. by apply Hsame. }
  split; [exact Hnone|]. split; [exact Hother|].
  split.
  { destruct Hcols as [[? ?]|[[? ?]|[[? ?]|[? ?]]]];
      [left|right; left|right; right; left|right; right; right];
      split; congruence. }
  pose proof (is_order_column col) as Hord.
  destruct (bool_decide (default "desc" (args req !! "order") = "asc")) eqn:Hasc.
  - apply bool_decide_eq_true in Hasc.
    split; [by apply order_by_asc|]. split; [intros _; by apply order_by_asc|].
    intros Hne. exfalso. apply Hne. destruct (args req !! "order"); cbn in *; congruence.
  - apply bool_decide_eq_false in Hasc.
    split; [by apply order_by_desc|]. split; [|intros _; by apply order_by_desc].
    intros Heq. rewrite Heq in Hasc. done.
Qed.

Lemma dashboard_lists_attendees_in_order_witness :
  ∃ sort_by col attendees links active_link,
    serve (admin_dashboard (sample_request GET [] [("sort_by", "name"); ("order", "asc")]
                              "" later)) with_Al
    = (render_template
         (admin_dashboard_html attendees links active_link sort_by
            (default "desc"
               (args (sample_request GET [] [("sort_by", "name"); ("order", "asc")] "" later)
                  !! "order"))) 200, with_Al)
    ∧ sort_by ∈ sortable_columns
    ∧ getattr_Attendee sort_by = Some col
    ∧ (∀ s, args (sample_request GET [] [("sort_by", "name"); ("order", "asc")] "" later)
              !! "sort_by" = Some s → s ∈ sortable_columns → sort_by = s)
    ∧ (args (sample_request GET [] [("sort_by", "name"); ("order", "asc")] "" later)
         !! "sort_by" = None → sort_by = "timestamp")
    ∧ (∀ s, args (sample_request GET [] [("sort_by", "name"); ("order", "asc")] "" later)
              !! "sort_by" = Some s → s ∉ sortable_columns → sort_by = "timestamp")
    ∧ ((sort_by = "name" ∧ col = col_name) ∨ (sort_by = "role" ∧ col = col_role)
       ∨ (sort_by = "group" ∧ col = col_group)
       ∨ (sort_by = "timestamp" ∧ col = col_timestamp))
    ∧ attendees ≡ₚ map_to_list (attendee with_Al)
    ∧ (args (sample_request GET [] [("sort_by", "name"); ("order", "asc")] "" later)
         !! "order" = Some "asc" →
       StronglySorted (asc (column_compare col)) attendees)
    ∧ (args (sample_request GET [] [("sort_by", "name"); ("order", "asc")] "" later)
         !! "order" ≠ Some "asc" →
       StronglySorted (desc (column_compare col)) attendees).
Proof. apply dashboard_lists_attendees_in_order. reflexivity. Defined.

Example dashboard_by_name_ascending :
  (λ a : Z * Attendee, name a.2) <$>
    (default ([], [], None)
       (listing (serve (admin_dashboard
                   (sample_request GET [] [("sort_by", "name"); ("order", "asc")] "" later))
                   with_Al).1)).1.1
  = ["Al"; "Jo"].
Proof. reflexivity. Qed.

Lemma first_active_link_spec (t : gmap Z AccessLink) :
  let found := head (filter (λ kv : Z * AccessLink, is_active kv.2 = true) (map_to_list t)) in
  (∀ id l, found = Some (id, l) → t !! id = Some l ∧ is_active l = true)
  ∧ (found = None ↔ ∀ id l, t !! id = Some l → is_active l = false)
  ∧ (at_most_one_active t →
     ∀ id l, t !! id = Some l → is_active l = true → found = Some (id, l)).
Proof.
  cbn zeta.
  assert (Hsome : ∀ id l,
    head (filter (λ kv : Z * AccessLink, is_active kv.2 = true) (map_to_list t)) = Some (id, l)
    → t !! id = Some l ∧ is_active l = true).
  { intros id l H. apply head_Some_elem_of, list_elem_of_filter in H as [Hact Hin].
    by apply elem_of_map_to_list in Hin. }
  assert (Hnone :
    head (filter (λ kv : Z * AccessLink, is_active kv.2 = true) (map_to_list t)) = None
    ↔ ∀ id l, t !! id = Some l → is_active l = false).
  { rewrite head_None. split.
    - intros Hnil id l Hl. apply not_true_is_false. intros Hact.
      eapply (filter_nil_not_elem_of _ _ (id, l)) in Hnil; [|done].
      by apply Hnil, elem_of_map_to_list.
    - intros Hall. destruct (filter _ _) as [|[id l] rest] eqn:E; [done|exfalso].
      assert (Hin : (id, l) ∈ filter (λ kv : Z * AccessLink, is_active kv.2 = true)
                      (map_to_list t)) by (rewrite E; left).
      apply list_elem_of_filter in Hin as [Hact Hin%elem_of_map_to_list].
      cbn in Hact. by rewrite (Hall _ _ Hin) in Hact. }
  split; [done|]. split; [done|].
  intros Hinv id l Hl Hact.
  destruct (head _) as [[id' l']|] eqn:E.
  - destruct (Hsome _ _ eq_refl) as [Hl' Hact'].
    assert (id' = id) as -> by (by eapply Hinv).
    congruence.
  - rewrite (proj1 Hnone eq_refl _ _ Hl) in Hact. done.
Qed.

(** X14.  For a logged-in admin the dashboard lists every link exactly once,
    newest first by [created_at], and shows as active link a row that is in
    the table and active; it shows none exactly when no row is active, and
    when at most one row is active it shows that row. *)
Theorem dashboard_lists_links_and_active_link (req : request) (st : state) :
  logged_in st = true →
  ∃ attendees links active_link,
    listing (serve (admin_dashboard req) st).1 = Some (attendees, links, active_link)
    ∧ links ≡ₚ map_to_list (access_link st)
    ∧ StronglySorted newest_link_first links
    ∧ (∀ id l, active_link = Some (id, l) →
         access_link st !! id = Some l ∧ is_active l = true)
    ∧ (active_link = None ↔
         ∀ id l, access_link st !! id = Some l → is_active l = false)
    ∧ (at_most_one_active (access_link st) →
         ∀ id l, access_link st !! id = Some l → is_active l = true →
           active_link = Some (id, l)).
Proof.
  intros Hin. rewrite admin_dashboard_guarded, Hin. unfold admin_dashboard_body.
  destruct (sort_by_after_fallback (default "timestamp" (args req !! "sort_by")))
    as (col & Hcol & _).
  set (sort_by := if bool_decide (_ ∉ sortable_columns) then _ else _) in *.
  run_view. rewrite Hcol. cbn [listing fst].
  do 3 eexists. split; [reflexivity|].
  pose proof (is_order_lift (λ a : Z * AccessLink, created_at a.2) _ is_order_datetime)
    as Hord.
  destruct (order_by_desc _ (map_to_list (access_link st)) Hord) as [Hperm Hsorted].
  split; [exact Hperm|]. split; [exact Hsorted|].
  apply first_active_link_spec.
Qed.

Lemma dashboard_lists_links_and_active_link_witness :
  ∃ attendees links active_link,
    listing (serve (admin_dashboard (sample_request GET [] [] "" later)) after_B).1
    = Some (attendees, links, active_link)
    ∧ links ≡ₚ map_to_list (access_link after_B)
    ∧ StronglySorted newest_link_first links
    ∧ (∀ id l, active_link = Some (id, l) →
         access_link after_B !! id = Some l ∧ is_active l = true)
    ∧ (active_link = None ↔
         ∀ id l, access_link after_B !! id = Some l → is_active l = false)
    ∧ (at_most_one_active (access_link after_B) →
         ∀ id l, access_link after_B !! id = Some l → is_active l = true →
           active_link = Some (id, l)).
Proof. apply dashboard_lists_links_and_active_link. reflexivity. Defined.

(** ** Which tokens open the registration form *)

(** X15.  After [generate_link] has committed, the new token is the only one
    the registration form accepts: a request on [/register/<token>] reaches
    the form exactly for the token just drawn, and every other token, those
    of the earlier links included, gets the invalid-link page with 404. *)
Theorem generate_link_leaves_one_valid_token (req : request) (st : state) :
  logged_in st = true →
  token_in_use (uuid4 req) (access_link st) = false →
  ∃ st',
    serve (generate_link req) st = (redirect "/admin/dashboard", st')
    ∧ count_active (access_link st') = 1%nat
    ∧ (∀ tok, accepts tok (access_link st') ↔ tok = uuid4 req)
    ∧ (∀ tok req', tok ≠ uuid4 req →
         serve (register tok req') st' = (render_template invalid_link_html 404, st'))
    ∧ (∀ req', method req' = GET →
         serve (register (uuid4 req) req') st'
         = (render_template (register_html (uuid4 req) roles) 200, st')).
Proof.
  intros Hin Hfresh. rewrite generate_link_eq by done.
  exists (generated req st).
  assert (Hacc : ∀ tok, accepts tok (access_link (generated req st)) ↔ tok = uuid4 req).
  { intros tok. split.
    - intros (id & l & Hl & Htok & Hact). cbn in Hl.
      apply lookup_insert_Some in Hl as [[_ <-]|[_ Hl]]; [done|].
      apply deactivate_none_active in Hl. congruence.
    - intros ->. eexists _, _. split; [apply generated_lookup_new|done]. }
  split; [done|]. split; [|split; [done|split]].
  - assert (Hle : (count_active (access_link (generated req st)) ≤ 1)%nat).
    { apply count_active_le_1. cbn. apply at_most_one_insert_after_deactivate. }
    assert (Hne : count_active (access_link (generated req st)) ≠ 0%nat); [|lia].
    unfold count_active. apply map_size_ne_0_lookup.
    exists (next_id (deactivate <$> access_link st)).
    eexists. apply map_lookup_filter_Some. split; [apply generated_lookup_new|done].
  - intros tok req' Hne. rewrite register_eq, no_active_link_found; [done|].
    by rewrite Hacc.
  - intros req' Hget. rewrite register_eq, Hget.
    destruct (active_link_found (uuid4 req) (access_link (generated req st))) as [kv ->];
      [by apply Hacc|done].
Qed.

Lemma generate_link_leaves_one_valid_token_witness :
  ∃ st',
    serve (generate_link (sample_request POST [] [] "tok-C" later)) after_B
    = (redirect "/admin/dashboard", st')
    ∧ count_active (access_link st') = 1%nat
    ∧ (∀ tok, accepts tok (access_link st')
              ↔ tok = uuid4 (sample_request POST [] [] "tok-C" later))
    ∧ (∀ tok req', tok ≠ uuid4 (sample_request POST [] [] "tok-C" later) →
         serve (register tok req') st' = (render_template invalid_link_html 404, st'))
    ∧ (∀ req', method req' = GET →
         serve (register (uuid4 (sample_request POST [] [] "tok-C" later)) req') st'
         = (render_template
              (register_html (uuid4 (sample_request POST [] [] "tok-C" later)) roles) 200,
            st')).
Proof. apply generate_link_leaves_one_valid_token; reflexivity. Defined.

Lemma toggle_link_status_eq (link_id : Z) (req : request) (st : state) (l : AccessLink) :
  logged_in st = true → access_link st !! link_id = Some l →
  serve (toggle_link_status link_id req) st
  = (redirect "/admin/dashboard", toggled link_id l st).
Proof.
  intros Hin Hl. unfold toggle_link_status, serve.
  by rewrite login_required_admits, toggle_link_status_body_eq, Hl.
Qed.

(** X16.  Switching an inactive link on makes its token, and no other, open
    the registration form; switching the only active link off closes
    registration: every [/register/<token>] then answers the invalid-link
    page with 404. *)
Theorem toggle_link_status_opens_and_closes_registration
    (link_id : Z) (req : request) (st : state) (l : AccessLink) :
  logged_in st = true →
  access_link st !! link_id = Some l →
  ∃ st',
    serve (toggle_link_status link_id req) st = (redirect "/admin/dashboard", st')
    ∧ if is_active l then
        at_most_one_active (access_link st) →
        ∀ tok req',
          serve (register tok req') st' = (render_template invalid_link_html 404, st')
      else
        count_active (access_link st') = 1%nat
        ∧ (∀ tok, accepts tok (access_link st') ↔ tok = token l)
        ∧ (∀ tok req', tok ≠ token l →
             serve (register tok req') st' = (render_template invalid_link_html 404, st'))
        ∧ (∀ req', method req' = GET →
             serve (register (token l) req') st'
             = (render_template (register_html (token l) roles) 200, st')).
Proof.
  intros Hin Hl. rewrite (toggle_link_status_eq _ _ _ l) by done.
  exists (toggled link_id l st). split; [done|].
  unfold toggled. destruct (is_active l) eqn:Ea.
  - intros Hinv tok req'. rewrite register_eq, no_active_link_found; [done|].
    intros (id & x & Hx & _ & Hact). cbn in Hx.
    pose proof (count_active_switch_off _ _ _ Hinv Hl Ea) as Hzero.
    apply map_size_empty_iff in Hzero.
    assert (Hin' : filter (λ kv : Z * AccessLink, is_active kv.2 = true)
                     (<[link_id := set_is_active false l]> (access_link st)) !! id = Some x)
      by (by apply map_lookup_filter_Some).
    by rewrite Hzero, lookup_empty in Hin'.
  - set (t' := <[link_id := set_is_active true l]> (deactivate <$> access_link st)).
    assert (Hacc : ∀ tok, accepts tok t' ↔ tok = token l).
    { intros tok. split.
      - intros (id & x & Hx & Htok & Hact). unfold t' in Hx.
        apply lookup_insert_Some in Hx as [[_ <-]|[_ Hx]]; [done|].
        apply deactivate_none_active in Hx. congruence.
      - intros ->. exists link_id, (set_is_active true l).
        unfold t'. by rewrite lookup_insert_eq. }
    cbn [access_link]. fold t'. split; [|split; [done|split]].
    + assert (Hle : (count_active t' ≤ 1)%nat).
      { apply count_active_le_1, at_most_one_insert_after_deactivate. }
      assert (Hne : count_active t' ≠ 0%nat); [|lia].
      unfold count_active. apply map_size_ne_0_lookup.
      exists link_id, (set_is_active true l).
      apply map_lookup_filter_Some. split; [apply lookup_insert_eq|done].
    + intros tok req' Hne. rewrite register_eq, no_active_link_found; [done|].
      cbn [access_link]. fold t'. by rewrite Hacc.
    + intros req' Hget. rewrite register_eq, Hget. cbn [access_link]. fold t'.
      destruct (active_link_found (token l) t') as [kv ->]; [by apply Hacc|done].
Qed.

Lemma toggle_link_status_opens_and_closes_registration_witness :
  ∃ st',
    serve (toggle_link_status 1 (sample_request POST [] [] "" later)) after_B
    = (redirect "/admin/dashboard", st')
    ∧ count_active (access_link st') = 1%nat
    ∧ (∀ tok, accepts tok (access_link st') ↔ tok = "tok-A")
    ∧ (∀ tok req', tok ≠ "tok-A" →
         serve (register tok req') st' = (render_template invalid_link_html 404, st'))
    ∧ (∀ req', method req' = GET →
         serve (register "tok-A" req') st'
         = (render_template (register_html "tok-A" roles) 200, st')).
Proof.
  apply (toggle_link_status_opens_and_closes_registration 1
           (sample_request POST [] [] "" later) after_B (mk_AccessLink "tok-A" false noon));
    reflexivity.
Defined.

Lemma set_is_active_same (l : AccessLink) (b : bool) :
  is_active l = b → set_is_active b l = l.
Proof. destruct l. cbn. by intros ->. Qed.

(** X17.  Switching the active link off and on again restores the link
    table: when at most one link is active, two [toggle_link_status] requests
    on the active link leave every row as it was. *)
Theorem toggle_off_then_on_restores_links
    (link_id : Z) (req req' : request) (st : state) (l : AccessLink) :
  logged_in st = true →
  at_most_one_active (access_link st) →
  access_link st !! link_id = Some l →
  is_active l = true →
  access_link
    (serve (toggle_link_status link_id req')
       (serve (toggle_link_status link_id req) st).2).2
  = access_link st.
Proof.
  intros Hin Hinv Hl Ha.
  rewrite (toggle_link_status_eq _ req st l) by done. cbn [snd].
  assert (Hoff : access_link (toggled link_id l st) !! link_id
                 = Some (set_is_active false l)).
  { unfold toggled. rewrite Ha. cbn. apply lookup_insert_eq. }
  rewrite (toggle_link_status_eq _ req' _ (set_is_active false l));
    [|by unfold toggled; rewrite Ha|done].
  unfold toggled at 1. cbn [is_active set_is_active access_link snd].
  unfold toggled. rewrite Ha. cbn [access_link token created_at].
  apply map_eq. intros i. destruct (decide (link_id = i)) as [<-|Hne].
  - rewrite lookup_insert_eq, Hl. f_equal. destruct l. cbn in *. by subst.
  - rewrite lookup_insert_ne, lookup_fmap, lookup_insert_ne by done.
    destruct (access_link st !! i) as [x|] eqn:Ei; [|done]. cbn. f_equal.
    apply set_is_active_same. apply not_true_is_false. intros Hx.
    apply Hne. by apply (Hinv link_id i l x).
Qed.

Lemma toggle_off_then_on_restores_links_witness :
  access_link
    (serve (toggle_link_status 2 (sample_request POST [] [] "" later))
       (serve (toggle_link_status 2 (sample_request POST [] [] "" noon)) after_B).2).2
  = access_link after_B.
Proof.
  apply (toggle_off_then_on_restores_links 2 _ _ after_B (mk_AccessLink "tok-B" true later));
    try reflexivity.
  apply count_active_le_1. vm_compute. lia.
Defined.

(** ** Fields of the exported lines *)

Lemma scan_delimiters_app (s1 s2 : string) (q : bool) :
  scan_delimiters q (s1 +:+ s2)
  = ((scan_delimiters (scan_delimiters q s1).1 s2).1,
     ((scan_delimiters q s1).2 + (scan_delimiters (scan_delimiters q s1).1 s2).2)%nat).
Proof.
  revert q. induction s1 as [|c s1 IH]; intros q.
  - change ("" +:+ s2) with s2. cbn. by destruct (scan_delimiters q s2).
  - change (String c s1 +:+ s2) with (String c (s1 +:+ s2)). cbn [scan_delimiters].
    destruct (bool_decide (c = csv.quotechar)); [apply IH|].
    destruct (bool_decide (c = csv.delimiter) && negb q); [|apply IH].
    rewrite IH. destruct (scan_delimiters q s1) as [q1 n1]. cbn.
    by destruct (scan_delimiters q1 s2).
Qed.

Lemma scan_delimiters_plain (s : string) (q : bool) :
  csv.needs_quotes s = false → scan_delimiters q s = (q, 0%nat).
Proof.
  induction s as [|c s IH]; [done|]. cbn [csv.needs_quotes scan_delimiters].
  intros [Hc Hs]%orb_false_iff. unfold csv.special in Hc.
  apply orb_false_iff in Hc as [[[Hd Hq]%orb_false_iff _]%orb_false_iff _].
  rewrite Hq, Hd. cbn. auto.
Qed.

Lemma scan_delimiters_escape (s : string) :
  scan_delimiters true (csv.escape s) = (true, 0%nat).
Proof.
  induction s as [|c s IH]; [done|]. cbn [csv.escape].
  destruct (decide (c = csv.quotechar)) as [->|Hne].
  - rewrite bool_decide_eq_true_2 by done. cbn [scan_delimiters].
    by rewrite !bool_decide_eq_true_2.
  - rewrite bool_decide_eq_false_2 by done. cbn [scan_delimiters].
    by rewrite bool_decide_eq_false_2, andb_false_r.
Qed.

Lemma scan_delimiters_field (c : cell) :
  scan_delimiters false (csv.field c) = (false, 0%nat).
Proof.
  unfold csv.field. destruct (csv.needs_quotes (csv.text c)) eqn:E.
  - change (String csv.quotechar (csv.escape (csv.text c)) +:+ String csv.quotechar "")
      with (String csv.quotechar (csv.escape (csv.text c) +:+ String csv.quotechar "")).
    cbn [scan_delimiters]. rewrite bool_decide_eq_true_2 by done. cbn [negb].
    by rewrite scan_delimiters_app, scan_delimiters_escape.
  - by apply scan_delimiters_plain.
Qed.

Lemma scan_delimiters_join (fields : list string) :
  Forall (λ f, scan_delimiters false f = (false, 0%nat)) fields →
  scan_delimiters false (csv.join fields) = (false, Nat.pred (List.length fields)).
Proof.
  induction 1 as [|f rest Hf _ IH]; [done|].
  destruct rest as [|f' rest]; [exact Hf|].
  change (csv.join (f :: f' :: rest))
    with (f +:+ String csv.delimiter (csv.join (f' :: rest))).
  set (r := csv.join (f' :: rest)) in *.
  rewrite scan_delimiters_app, Hf. cbn [fst snd scan_delimiters].
  rewrite bool_decide_eq_false_2 by done.
  rewrite (bool_decide_eq_true_2 (csv.delimiter = csv.delimiter)) by done.
  cbn [andb negb]. by rewrite IH.
Qed.

Lemma count_fields_csv_line (row : list cell) :
  row ≠ [] → count_fields (csv_line row) = List.length row.
Proof.
  intros Hrow. unfold count_fields, csv_line.
  rewrite scan_delimiters_app, scan_delimiters_join.
  - cbn [fst snd].
    change (scan_delimiters false csv.lineterminator) with (false, 0%nat).
    cbn [snd]. rewrite length_fmap. destruct row; [done|]. cbn [List.length]. lia.
  - apply Forall_fmap, Forall_forall. intros c _. apply scan_delimiters_field.
Qed.

(** X18.  Every line of the export has six fields, like the header: commas,
    quotes and line breaks inside a name, a role, a group or a token are
    quoted by the writer and never split or merge columns. *)
Theorem exported_lines_have_six_fields (a : Z * Attendee) :
  count_fields (csv_line (csv_row a)) = 6%nat
  ∧ count_fields header_line = 6%nat.
Proof. split; [by apply count_fields_csv_line|reflexivity]. Qed.

Example comma_in_name_keeps_six_fields :
  count_fields (csv_line (csv_row (7, mk_Attendee "Doe, Jo" "Guest" None noon "tok-B")))
  = 6%nat.
Proof. reflexivity. Qed.

(** ** From the form to the roster *)

Lemma export_csv_eq (req : request) (st : state) :
  logged_in st = true →
  serve (export_csv req) st
  = (make_response
       (header_line +:+
        concat_lines (csv_line ∘ csv_row <$>
          order_by (desc (column_compare col_timestamp)) (map_to_list (attendee st))))
       export_headers, st).
Proof.
  intros Hin. unfold export_csv, serve. rewrite login_required_admits by done.
  unfold export_csv_body. run_view.
  by rewrite writerow_loop, header_line_written.
Qed.

Lemma elem_of_order_by {A} (R : A → A → Prop) `{!RelDecision R} (rows : list A) (x : A) :
  x ∈ order_by R rows ↔ x ∈ rows.
Proof. unfold order_by. by rewrite merge_sort_Permutation. Qed.

(** X19.  An accepted registration shows up in the roster: the row that
    [register] wrote is among the attendees the dashboard lists next, under
    any sorting, and among the rows of the next CSV export. *)
Theorem registered_attendee_is_listed
    (tok : string) (req req_dashboard req_export : request) (st : state) (nm rl : string) :
  logged_in st = true →
  accepts tok (access_link st) →
  method req = POST →
  form req !! "name" = Some nm → form req !! "role" = Some rl →
  nm ≠ "" → rl ≠ "" →
  ∃ st' new_id attendees links active_link rows,
    serve (register tok req) st = (redirect "/success", st')
    ∧ attendee st' !! new_id
      = Some (mk_Attendee nm rl (form req !! "group") (utcnow req) tok)
    ∧ listing (serve (admin_dashboard req_dashboard) st').1
      = Some (attendees, links, active_link)
    ∧ (new_id, mk_Attendee nm rl (form req !! "group") (utcnow req) tok) ∈ attendees
    ∧ (serve (export_csv req_export) st').1
      = make_response (header_line +:+ concat_lines (csv_line ∘ csv_row <$> rows))
          export_headers
    ∧ (new_id, mk_Attendee nm rl (form req !! "group") (utcnow req) tok) ∈ rows.
Proof.
  intros Hin Hacc Hpost Hn Hr Hnm Hrl.
  destruct (active_link_found _ _ Hacc) as [kv Hkv].
  rewrite register_eq, Hkv, Hpost, Hn, Hr.
  apply truthy_nonempty in Hnm, Hrl. rewrite Hnm, Hrl. cbn [negb orb].
  set (st' := registered tok req nm rl st).
  set (row := mk_Attendee nm rl (form req !! "group") (utcnow req) tok).
  assert (Hin' : logged_in st' = true) by done.
  assert (Hrow : attendee st' !! next_id (attendee st) = Some row)
    by apply lookup_insert_eq.
  assert (Hmem : (next_id (attendee st), row) ∈ map_to_list (attendee st'))
    by (by apply elem_of_map_to_list).
  destruct (sort_by_after_fallback (default "timestamp" (args req_dashboard !! "sort_by")))
    as (col & Hcol & _).
  exists st', (next_id (attendee st)).
  rewrite admin_dashboard_guarded, Hin', export_csv_eq by done.
  unfold admin_dashboard_body.
  set (sort_by := if bool_decide (_ ∉ sortable_columns) then _ else _) in *.
  run_view. rewrite Hcol. cbn [listing fst].
  do 4 eexists. split; [reflexivity|]. split; [exact Hrow|].
  split; [reflexivity|]. split; [|split; [reflexivity|]].
  - destruct (bool_decide (default "desc" (args req_dashboard !! "order") = "asc"));
      by apply elem_of_order_by.
  - by apply elem_of_order_by.
Qed.

Lemma registered_attendee_is_listed_witness :
  ∃ st' new_id attendees links active_link rows,
    serve (register "tok-B"
             (sample_request POST [("name", "Al"); ("role", "Leader")] [] "" noon)) with_Jo
    = (redirect "/success", st')
    ∧ attendee st' !! new_id
      = Some (mk_Attendee "Al" "Leader"
                (form (sample_request POST [("name", "Al"); ("role", "Leader")] [] "" noon)
                   !! "group")
                (utcnow (sample_request POST [("name", "Al"); ("role", "Leader")] [] "" noon))
                "tok-B")
    ∧ listing (serve (admin_dashboard (sample_request GET [] [("sort_by", "role")] "" later))
                 st').1
      = Some (attendees, links, active_link)
    ∧ (new_id,
       mk_Attendee "Al" "Leader"
         (form (sample_request POST [("name", "Al"); ("role", "Leader")] [] "" noon)
            !! "group")
         (utcnow (sample_request POST [("name", "Al"); ("role", "Leader")] [] "" noon))
         "tok-B") ∈ attendees
    ∧ (serve (export_csv (sample_request GET [] [] "" later)) st').1
      = make_response (header_line +:+ concat_lines (csv_line ∘ csv_row <$> rows))
          export_headers
    ∧ (new_id,
       mk_Attendee "Al" "Leader"
         (form (sample_request POST [("name", "Al"); ("role", "Leader")] [] "" noon)
            !! "group")
         (utcnow (sample_request POST [("name", "Al"); ("role", "Leader")] [] "" noon))
         "tok-B") ∈ rows.
Proof.
  apply registered_attendee_is_listed; try done.
  exists 2, (mk_AccessLink "tok-B" true later). by vm_compute.
Defined.
